(** * Archival-Flow: the upload-and-verification pipeline

    A shallow embedding of [services/archiveService.ts] (identifier
    generator, header sanitizer, credential verifier, upload transport) and of
    the orchestrator component [App] (step state machine, completion poller,
    reset, failure classification), with the properties of the pipeline
    stated and proved over it.

    JavaScript strings are sequences of UTF-16 code units; they are modelled
    as lists of [N].  Regular-expression replacements are written as the
    left-to-right scans the engine performs. *)

From Stdlib Require Import List NArith ZArith QArith Bool Lia.
From Stdlib Require Import Ascii String Decimal DecimalString DecimalZ.
Import ListNotations.

Local Open Scope N_scope.
Local Open Scope list_scope.

(** ** JavaScript strings *)

Module JS.

(** A string is its sequence of UTF-16 code units. *)
Definition jsstring := list N.

(** An ASCII literal as a JavaScript string. *)
Definition js (s : string) : jsstring :=
  List.map N_of_ascii (list_ascii_of_string s).

(** [a === b] on strings. *)
Fixpoint eqb (a b : jsstring) : bool :=
  match a, b with
  | [], [] => true
  | x :: a', y :: b' => (x =? y) && eqb a' b'
  | _, _ => false
  end.

(** Truthiness of a string: only the empty string is falsy. *)
Definition truthy (s : jsstring) : bool :=
  match s with [] => false | _ :: _ => true end.

(** [s.startsWith(p)]. *)
Fixpoint starts_with (p s : jsstring) : bool :=
  match p, s with
  | [], _ => true
  | x :: p', y :: s' => (x =? y) && starts_with p' s'
  | _ :: _, [] => false
  end.

(** [s.includes(p)]: some position of [s] starts an occurrence of [p]. *)
Fixpoint includes (s p : jsstring) : bool :=
  starts_with p s ||
  match s with
  | [] => false
  | _ :: s' => includes s' p
  end.

(** Number-to-string conversion of an integer ([`${n}`]): decimal digits,
    with a leading minus sign for a negative number. *)
Definition number_to_string (n : Z) : jsstring :=
  js (NilEmpty.string_of_int (Z.to_int n)).

(** Character classes used by the regular expressions of the program. *)
Definition is_digit (c : N) : bool := (48 <=? c) && (c <=? 57).
Definition is_lower (c : N) : bool := (97 <=? c) && (c <=? 122).
Definition is_upper (c : N) : bool := (65 <=? c) && (c <=? 90).

(** [[0-9A-F]] under the [i] flag: the letters match in both cases. *)
Definition is_hex (c : N) : bool :=
  is_digit c || ((65 <=? c) && (c <=? 70)) || ((97 <=? c) && (c <=? 102)).

Definition hex_value (c : N) : N :=
  if is_digit c then c - 48
  else if (65 <=? c) && (c <=? 70) then c - 55
  else c - 87.

(** [\s], which is also the set [String.prototype.trim] strips: the white
    space and line terminator code points. *)
Definition is_space (c : N) : bool :=
  (c =? 9) || (c =? 10) || (c =? 11) || (c =? 12) || (c =? 13) ||
  (c =? 32) || (c =? 160) || (c =? 5760) ||
  ((8192 <=? c) && (c <=? 8202)) ||
  (c =? 8232) || (c =? 8233) || (c =? 8239) || (c =? 8287) ||
  (c =? 12288) || (c =? 65279).

(** [s.replace(/[class]+/g, by)]: every maximal run of characters of the
    class is replaced by [by].  [in_run] tells that the scan is inside a
    run whose replacement has been emitted already. *)
Fixpoint replace_runs (cls : N -> bool) (by_ : jsstring) (in_run : bool)
    (s : jsstring) : jsstring :=
  match s with
  | [] => []
  | c :: s' =>
      if cls c then
        if in_run then replace_runs cls by_ true s'
        else by_ ++ replace_runs cls by_ true s'
      else c :: replace_runs cls by_ false s'
  end.

(** [s.replace(/[class]/g, by)] with a one-character replacement. *)
Definition replace_each (cls : N -> bool) (by_ : N) (s : jsstring) : jsstring :=
  List.map (fun c => if cls c then by_ else c) s.

(** Removal of the leading run of a class ([/^[class]+/]). *)
Fixpoint drop_leading (cls : N -> bool) (s : jsstring) : jsstring :=
  match s with
  | [] => []
  | c :: s' => if cls c then drop_leading cls s' else s
  end.

(** Removal of the trailing run of a class ([/[class]+$/]). *)
Fixpoint drop_trailing (cls : N -> bool) (s : jsstring) : jsstring :=
  match s with
  | [] => []
  | c :: s' =>
      match drop_trailing cls s' with
      | [] => if cls c then [] else [c]
      | t => c :: t
      end
  end.

(** [s.trim()]. *)
Definition trim (s : jsstring) : jsstring :=
  drop_trailing is_space (drop_leading is_space s).

(** [s.split(sep)] for a one-character separator; the result is never
    empty (the empty string splits into one empty segment). *)
Fixpoint split (sep : N) (s : jsstring) : list jsstring :=
  match s with
  | [] => [[]]
  | c :: s' =>
      if c =? sep then [] :: split sep s'
      else match split sep s' with
           | seg :: more => (c :: seg) :: more
           | [] => [[c]]
           end
  end.

(** [a.pop()] read as a value: the last element. *)
Definition pop (segs : list jsstring) : jsstring := List.last segs [].

End JS.

Import JS.

(** ** services/archiveService.ts *)

Module ArchiveService.

Definition percent : N := 37.

(** [decodeURIComponent] applied to one escape [%h1h2] (the only strings
    the replacer callback passes to it).  The escape denotes the byte [B].
    A byte below 0x80 is the code point itself.  A byte with its high bit
    set is either a continuation byte or the lead byte of a sequence whose
    remaining bytes must follow as further escapes; the three-character
    argument has none, so the call throws [URIError]: [None]. *)
Definition decodeURIComponent_escape (h1 h2 : N) : option jsstring :=
  let B := 16 * hex_value h1 + hex_value h2 in
  if N.testbit B 7 then None else Some [B].

(** The replacer callback:
    [(match) => { try { return decodeURIComponent(match); } catch { return match; } }]. *)
Definition replacer (h1 h2 : N) : jsstring :=
  match decodeURIComponent_escape h1 h2 with
  | Some decoded => decoded
  | None => [percent; h1; h2]
  end.

(** [/%[0-9A-F]{2}/i.test(clean)]. *)
Fixpoint has_escape (s : jsstring) : bool :=
  match s with
  | [] => false
  | c :: tl =>
      match tl with
      | h1 :: h2 :: _ =>
          ((c =? percent) && is_hex h1 && is_hex h2) || has_escape tl
      | _ => false
      end
  end.

(** [clean.replace(/%[0-9A-F]{2}/gi, replacer)]: one left-to-right pass;
    after a match the scan resumes behind it. *)
Fixpoint decode_pass (s : jsstring) : jsstring :=
  match s with
  | [] => []
  | c :: tl =>
      match tl with
      | h1 :: h2 :: rest =>
          if (c =? percent) && is_hex h1 && is_hex h2
          then replacer h1 h2 ++ decode_pass rest
          else c :: decode_pass tl
      | _ => c :: decode_pass tl
      end
  end.

(** The [while] loop of step 1.  [budget] is [5 - loopCount]. *)
Fixpoint decode_loop (budget : nat) (clean : jsstring) : jsstring :=
  match budget with
  | O => clean
  | S budget' =>
      if has_escape clean then
        let previous := clean in
        let clean := decode_pass clean in
        if JS.eqb clean previous then clean
        else decode_loop budget' clean
      else clean
  end.

Definition is_newline (c : N) : bool := (c =? 13) || (c =? 10).
Definition outside_latin1 (c : N) : bool := 255 <? c.
Definition space : N := 32.

Definition sanitizeHeaderValue (val : jsstring) : jsstring :=
  if negb (truthy val) then []
  else
    let clean := decode_loop 5 val in
    let clean := replace_runs is_newline [space] false clean in
    let clean := replace_each outside_latin1 space clean in
    let clean := trim (replace_runs is_space [space] false clean) in
    clean.


(** *** generateIdentifier *)

(** [String.prototype.toLowerCase], one code unit at a time.  The Latin
    capitals map to their small letters.  Two further code points have a
    lower case containing an ASCII letter: U+0130 maps to [i] followed by
    U+0307, and U+212A (Kelvin sign) maps to [k].  Every other mapping of
    the Unicode tables yields code units outside ASCII, which the caller
    replaces like the unmapped ones; they are left as they are here. *)
Definition toLowerCase_unit (c : N) : jsstring :=
  if is_upper c then [c + 32]
  else if c =? 304 then [105; 775]
  else if c =? 8490 then [107]
  else [c].

Definition toLowerCase (s : jsstring) : jsstring :=
  List.flat_map toLowerCase_unit s.

Definition hyphen : N := 45.
Definition is_hyphen (c : N) : bool := c =? hyphen.

(** [[^a-z0-9]]. *)
Definition not_lower_alnum (c : N) : bool := negb (is_lower c || is_digit c).

Definition namespace_prefix : jsstring := js "notebooklm-archive-".

(** [timestamp] is the value of [Date.now()] at the call. *)
Definition generateIdentifier (timestamp : Z) (title : jsstring) : jsstring :=
  let cleanTitle :=
    drop_trailing is_hyphen
      (drop_leading is_hyphen
         (replace_runs not_lower_alnum [hyphen] false (toLowerCase title))) in
  namespace_prefix ++ List.firstn 50 cleanTitle ++ [hyphen]
    ++ number_to_string timestamp.

(** *** Requests and their outcomes *)

Record ArchiveKeys := { accessKey : jsstring; secretKey : jsstring }.

Record ArchiveMetadata := {
  title : jsstring;
  description : jsstring;
  tags : list jsstring;
  creator : jsstring
}.

Record File := { name : jsstring; size : N }.

(** What is thrown or passed to [reject]. *)
Inductive exn :=
| Error (message : jsstring)   (* [new Error(message)] *)
| TypeError                    (* value is not a byte string *)
| SyntaxError.                 (* value is not a header value *)

(** A settled promise. *)
Inductive settled (A : Type) :=
| Resolved (value : A)
| Rejected (reason : exn).
Arguments Resolved {A} value.
Arguments Rejected {A} reason.

(** How an XMLHttpRequest that was sent ends: the [load] event with the
    response status and text, or the [error] event. *)
Inductive xhr_outcome :=
| Load (status : N) (responseText : jsstring)
| NetworkError.

Definition is_http_whitespace (c : N) : bool :=
  (c =? 9) || (c =? 10) || (c =? 13) || (c =? 32).

(** [xhr.setRequestHeader(name, value)] for the header names of this
    program, which are all legal.  The value is converted to a byte string
    (a code unit above 0xFF is a [TypeError]), stripped of leading and
    trailing HTTP white space, and refused with a [SyntaxError] if it then
    contains NUL, LF or CR.  [None]: the header is set. *)
Definition setRequestHeader (value : jsstring) : option exn :=
  if List.existsb outside_latin1 value then Some TypeError
  else
    let v := drop_trailing is_http_whitespace
               (drop_leading is_http_whitespace value) in
    if List.existsb (fun c => (c =? 0) || (c =? 10) || (c =? 13)) v
    then Some SyntaxError
    else None.

Definition authorization (keys : ArchiveKeys) : jsstring :=
  js "LOW " ++ accessKey keys ++ js ":" ++ secretKey keys.

(** *** verifyCredentials

    The promise executor opens the request, sets the Authorization header
    and sends; an exception thrown by the executor rejects the promise.
    Otherwise the promise is resolved by [onload] or [onerror]. *)
Definition verifyCredentials (keys : ArchiveKeys) (outcome : xhr_outcome)
  : settled bool :=
  match setRequestHeader (authorization keys) with
  | Some e => Rejected e
  | None =>
      match outcome with
      | Load status _ =>
          if status =? 200 then Resolved true else Resolved false
      | NetworkError => Resolved false
      end
  end.

(** *** uploadToInternetArchive *)

Definition dot : N := 46.
Definition underscore : N := 95.

(** [[^.]]. *)
Definition not_dot (c : N) : bool := negb (c =? dot).

(** [[^a-zA-Z0-9.-]]. *)
Definition not_filename_char (c : N) : bool :=
  negb (is_lower c || is_upper c || is_digit c || (c =? dot) || (c =? hyphen)).

(** [s.replace(/\.[^.]+$/, '')]: the first position holding a dot that is
    followed, up to the end, by one or more characters other than a dot. *)
Fixpoint strip_extension (s : jsstring) : jsstring :=
  match s with
  | [] => []
  | c :: s' =>
      if (c =? dot) && truthy s' && List.forallb not_dot s'
      then []
      else c :: strip_extension s'
  end.

(** [file.name.split('.').pop() || 'mp3']. *)
Definition ext (file_name : jsstring) : jsstring :=
  let last_segment := pop (split dot file_name) in
  if truthy last_segment then last_segment else js "mp3".

Definition safeFilename (file_name : jsstring) : jsstring :=
  strip_extension (replace_each not_filename_char underscore file_name)
    ++ [dot] ++ ext file_name.

Definition BASE_URL : jsstring := js "https://s3.us.archive.org".

Definition upload_url (identifier file_name : jsstring) : jsstring :=
  BASE_URL ++ js "/" ++ identifier ++ js "/" ++ safeFilename file_name.

(** [cleanTags.join(';')]. *)
Fixpoint join (sep : jsstring) (l : list jsstring) : jsstring :=
  match l with
  | [] => []
  | [x] => x
  | x :: l' => x ++ sep ++ join sep l'
  end.

(** The [headers] object, in the order [Object.entries] lists it. *)
Definition headers (metadata : ArchiveMetadata) (keys : ArchiveKeys)
  : list (jsstring * jsstring) :=
  [ (js "Authorization", authorization keys);
    (js "x-archive-auto-make-bucket", js "1");
    (js "x-archive-meta-mediatype", js "audio");
    (js "x-archive-meta-collection", js "opensource_audio");
    (js "x-archive-meta-title", sanitizeHeaderValue (title metadata));
    (js "x-archive-meta-creator", sanitizeHeaderValue (creator metadata));
    (js "x-archive-meta-description", sanitizeHeaderValue (description metadata));
    (js "x-archive-interactive-priority", js "1") ]
  ++
  (let cleanTags :=
     List.filter truthy (List.map sanitizeHeaderValue (tags metadata)) in
   match cleanTags with
   | [] => []
   | _ :: _ => [ (js "x-archive-meta-subject", join (js ";") cleanTags) ]
   end).

(** The request that is sent: a header whose [setRequestHeader] throws is
    logged and left out. *)
Record request := {
  req_url : jsstring;
  req_headers : list (jsstring * jsstring)
}.

Definition upload_request (identifier : jsstring) (file : File)
    (metadata : ArchiveMetadata) (keys : ArchiveKeys) : request :=
  {| req_url := upload_url identifier (name file);
     req_headers :=
       List.filter
         (fun h => match setRequestHeader (snd h) with
                   | None => true
                   | Some _ => false
                   end)
         (headers metadata keys) |}.

(** [`Upload failed with status ${xhr.status}: ${xhr.responseText}`]. *)
Definition upload_failure_message (status : N) (responseText : jsstring)
  : jsstring :=
  js "Upload failed with status " ++ number_to_string (Z.of_N status)
    ++ js ": " ++ responseText.

Definition details_url (identifier : jsstring) : jsstring :=
  js "https://archive.org/details/" ++ identifier.

(** The [load] and [error] listeners. *)
Definition upload_settle (identifier : jsstring) (outcome : xhr_outcome)
  : settled jsstring :=
  match outcome with
  | Load status responseText =>
      if (200 <=? status) && (status <? 300)
      then Resolved (details_url identifier)
      else Rejected (Error (upload_failure_message status responseText))
  | NetworkError => Rejected (Error (js "Network error during upload"))
  end.

Definition uploadToInternetArchive (timestamp : Z) (file : File)
    (metadata : ArchiveMetadata) (keys : ArchiveKeys)
    (outcome : xhr_outcome) : request * settled jsstring :=
  let identifier := generateIdentifier timestamp (title metadata) in
  (upload_request identifier file metadata keys,
   upload_settle identifier outcome).

End ArchiveService.

Import ArchiveService.

(** ** The orchestrator component (App) *)

Module App.

Inductive AppStep := UPLOAD | REVIEW | UPLOADING | SUCCESS | ERROR.

Definition AppStep_eqb (a b : AppStep) : bool :=
  match a, b with
  | UPLOAD, UPLOAD | REVIEW, REVIEW | UPLOADING, UPLOADING
  | SUCCESS, SUCCESS | ERROR, ERROR => true
  | _, _ => false
  end.

(** *** The metadata endpoint and one status check *)

(** The document of the metadata endpoint,
    [{ metadata: { identifier }, files: [ { format, ... }, ... ] }];
    a field may be absent. *)
Record FileEntry := { format : option jsstring }.
Record ItemMetadata := { identifier : option jsstring }.
Record MetadataDocument := {
  doc_metadata : option ItemMetadata;
  doc_files : option (list FileEntry)
}.

(** What [await response.json()] gives: it throws on a body that is not
    JSON; the parsed value may be [null]. *)
Inductive json_body :=
| InvalidJson
| JsonNull
| JsonData (data : MetadataDocument).

(** What [await fetch(...)] gives: it throws on a network error. *)
Inductive fetch_result :=
| FetchRejected
| Response (ok : bool) (body : json_body).

Definition PNG : jsstring := js "PNG".

(** [data.files && data.files.some((f) => f.format === 'PNG')]. *)
Definition hasWaveform (data : MetadataDocument) : bool :=
  match doc_files data with
  | None => false
  | Some files =>
      List.existsb
        (fun f => match format f with
                  | Some fmt => JS.eqb fmt PNG
                  | None => false
                  end)
        files
  end.

(** The body of [checkStatus] once the response is there: whether it
    reaches the branch that stops the verification.  Everything thrown on
    the way is caught and logged. *)
Definition check_succeeds (requested : jsstring) (r : fetch_result) : bool :=
  match r with
  | FetchRejected => false
  | Response ok body =>
      if ok then
        match body with
        | InvalidJson => false
        | JsonNull => false
        | JsonData data =>
            match doc_metadata data with
            | None => false
            | Some m =>
                match identifier m with
                | None => false
                | Some i =>
                    if JS.eqb i requested then hasWaveform data else false
                end
            end
        end
      else false
  end.

(** *** Component state *)

Record State := {
  keys : option ArchiveKeys;
  keysVerified : bool;
  isSettingsOpen : bool;
  step : AppStep;
  file : option File;
  userContext : jsstring;
  metadata : ArchiveMetadata;
  isGenerating : bool;
  uploadProgress : Q;           (* percent *)
  successUrl : option jsstring;
  errorMsg : option jsstring;
  isVerifying : bool;
  elapsedTime : N;
  (* the resources of the polling effect *)
  timerInterval : bool;         (* the one-second interval is set *)
  pollInterval : bool;          (* the five-second interval is set *)
  poll_identifier : jsstring;   (* [identifier] of the effect's closure *)
  poll_requests : list jsstring;(* the identifiers fetched so far *)
  pending_upload : option jsstring (* identifier of the upload in flight *)
}.

Definition initial_metadata : ArchiveMetadata :=
  {| title := []; description := []; tags := []; creator := js "NotebookLM" |}.

Definition initial : State :=
  {| keys := None; keysVerified := false; isSettingsOpen := false;
     step := UPLOAD; file := None; userContext := [];
     metadata := initial_metadata; isGenerating := false;
     uploadProgress := 0%Q; successUrl := None; errorMsg := None;
     isVerifying := false; elapsedTime := 0;
     timerInterval := false; pollInterval := false; poll_identifier := [];
     poll_requests := []; pending_upload := None |}.

(** Setters, one per piece of state. *)
Definition set_step (v : AppStep) (s : State) : State :=
  {| keys := keys s; keysVerified := keysVerified s;
     isSettingsOpen := isSettingsOpen s; step := v; file := file s;
     userContext := userContext s; metadata := metadata s;
     isGenerating := isGenerating s; uploadProgress := uploadProgress s;
     successUrl := successUrl s; errorMsg := errorMsg s;
     isVerifying := isVerifying s; elapsedTime := elapsedTime s;
     timerInterval := timerInterval s; pollInterval := pollInterval s;
     poll_identifier := poll_identifier s;
     poll_requests := poll_requests s; pending_upload := pending_upload s |}.

Definition set_file (v : option File) (s : State) : State :=
  {| keys := keys s; keysVerified := keysVerified s;
     isSettingsOpen := isSettingsOpen s; step := step s; file := v;
     userContext := userContext s; metadata := metadata s;
     isGenerating := isGenerating s; uploadProgress := uploadProgress s;
     successUrl := successUrl s; errorMsg := errorMsg s;
     isVerifying := isVerifying s; elapsedTime := elapsedTime s;
     timerInterval := timerInterval s; pollInterval := pollInterval s;
     poll_identifier := poll_identifier s;
     poll_requests := poll_requests s; pending_upload := pending_upload s |}.

Definition set_userContext (v : jsstring) (s : State) : State :=
  {| keys := keys s; keysVerified := keysVerified s;
     isSettingsOpen := isSettingsOpen s; step := step s; file := file s;
     userContext := v; metadata := metadata s;
     isGenerating := isGenerating s; uploadProgress := uploadProgress s;
     successUrl := successUrl s; errorMsg := errorMsg s;
     isVerifying := isVerifying s; elapsedTime := elapsedTime s;
     timerInterval := timerInterval s; pollInterval := pollInterval s;
     poll_identifier := poll_identifier s;
     poll_requests := poll_requests s; pending_upload := pending_upload s |}.

Definition set_metadata (v : ArchiveMetadata) (s : State) : State :=
  {| keys := keys s; keysVerified := keysVerified s;
     isSettingsOpen := isSettingsOpen s; step := step s; file := file s;
     userContext := userContext s; metadata := v;
     isGenerating := isGenerating s; uploadProgress := uploadProgress s;
     successUrl := successUrl s; errorMsg := errorMsg s;
     isVerifying := isVerifying s; elapsedTime := elapsedTime s;
     timerInterval := timerInterval s; pollInterval := pollInterval s;
     poll_identifier := poll_identifier s;
     poll_requests := poll_requests s; pending_upload := pending_upload s |}.

Definition set_isGenerating (v : bool) (s : State) : State :=
  {| keys := keys s; keysVerified := keysVerified s;
     isSettingsOpen := isSettingsOpen s; step := step s; file := file s;
     userContext := userContext s; metadata := metadata s;
     isGenerating := v; uploadProgress := uploadProgress s;
     successUrl := successUrl s; errorMsg := errorMsg s;
     isVerifying := isVerifying s; elapsedTime := elapsedTime s;
     timerInterval := timerInterval s; pollInterval := pollInterval s;
     poll_identifier := poll_identifier s;
     poll_requests := poll_requests s; pending_upload := pending_upload s |}.

Definition set_uploadProgress (v : Q) (s : State) : State :=
  {| keys := keys s; keysVerified := keysVerified s;
     isSettingsOpen := isSettingsOpen s; step := step s; file := file s;
     userContext := userContext s; metadata := metadata s;
     isGenerating := isGenerating s; uploadProgress := v;
     successUrl := successUrl s; errorMsg := errorMsg s;
     isVerifying := isVerifying s; elapsedTime := elapsedTime s;
     timerInterval := timerInterval s; pollInterval := pollInterval s;
     poll_identifier := poll_identifier s;
     poll_requests := poll_requests s; pending_upload := pending_upload s |}.

Definition set_successUrl (v : option jsstring) (s : State) : State :=
  {| keys := keys s; keysVerified := keysVerified s;
     isSettingsOpen := isSettingsOpen s; step := step s; file := file s;
     userContext := userContext s; metadata := metadata s;
     isGenerating := isGenerating s; uploadProgress := uploadProgress s;
     successUrl := v; errorMsg := errorMsg s;
     isVerifying := isVerifying s; elapsedTime := elapsedTime s;
     timerInterval := timerInterval s; pollInterval := pollInterval s;
     poll_identifier := poll_identifier s;
     poll_requests := poll_requests s; pending_upload := pending_upload s |}.

Definition set_errorMsg (v : option jsstring) (s : State) : State :=
  {| keys := keys s; keysVerified := keysVerified s;
     isSettingsOpen := isSettingsOpen s; step := step s; file := file s;
     userContext := userContext s; metadata := metadata s;
     isGenerating := isGenerating s; uploadProgress := uploadProgress s;
     successUrl := successUrl s; errorMsg := v;
     isVerifying := isVerifying s; elapsedTime := elapsedTime s;
     timerInterval := timerInterval s; pollInterval := pollInterval s;
     poll_identifier := poll_identifier s;
     poll_requests := poll_requests s; pending_upload := pending_upload s |}.

Definition set_isVerifying (v : bool) (s : State) : State :=
  {| keys := keys s; keysVerified := keysVerified s;
     isSettingsOpen := isSettingsOpen s; step := step s; file := file s;
     userContext := userContext s; metadata := metadata s;
     isGenerating := isGenerating s; uploadProgress := uploadProgress s;
     successUrl := successUrl s; errorMsg := errorMsg s;
     isVerifying := v; elapsedTime := elapsedTime s;
     timerInterval := timerInterval s; pollInterval := pollInterval s;
     poll_identifier := poll_identifier s;
     poll_requests := poll_requests s; pending_upload := pending_upload s |}.

Definition set_elapsedTime (v : N) (s : State) : State :=
  {| keys := keys s; keysVerified := keysVerified s;
     isSettingsOpen := isSettingsOpen s; step := step s; file := file s;
     userContext := userContext s; metadata := metadata s;
     isGenerating := isGenerating s; uploadProgress := uploadProgress s;
     successUrl := successUrl s; errorMsg := errorMsg s;
     isVerifying := isVerifying s; elapsedTime := v;
     timerInterval := timerInterval s; pollInterval := pollInterval s;
     poll_identifier := poll_identifier s;
     poll_requests := poll_requests s; pending_upload := pending_upload s |}.

Definition set_isSettingsOpen (v : bool) (s : State) : State :=
  {| keys := keys s; keysVerified := keysVerified s;
     isSettingsOpen := v; step := step s; file := file s;
     userContext := userContext s; metadata := metadata s;
     isGenerating := isGenerating s; uploadProgress := uploadProgress s;
     successUrl := successUrl s; errorMsg := errorMsg s;
     isVerifying := isVerifying s; elapsedTime := elapsedTime s;
     timerInterval := timerInterval s; pollInterval := pollInterval s;
     poll_identifier := poll_identifier s;
     poll_requests := poll_requests s; pending_upload := pending_upload s |}.

Definition set_keys (k : option ArchiveKeys) (verified : bool) (s : State)
  : State :=
  {| keys := k; keysVerified := verified;
     isSettingsOpen := isSettingsOpen s; step := step s; file := file s;
     userContext := userContext s; metadata := metadata s;
     isGenerating := isGenerating s; uploadProgress := uploadProgress s;
     successUrl := successUrl s; errorMsg := errorMsg s;
     isVerifying := isVerifying s; elapsedTime := elapsedTime s;
     timerInterval := timerInterval s; pollInterval := pollInterval s;
     poll_identifier := poll_identifier s;
     poll_requests := poll_requests s; pending_upload := pending_upload s |}.

(** The effect's own variables. *)
Definition set_intervals (timer poll : bool) (s : State) : State :=
  {| keys := keys s; keysVerified := keysVerified s;
     isSettingsOpen := isSettingsOpen s; step := step s; file := file s;
     userContext := userContext s; metadata := metadata s;
     isGenerating := isGenerating s; uploadProgress := uploadProgress s;
     successUrl := successUrl s; errorMsg := errorMsg s;
     isVerifying := isVerifying s; elapsedTime := elapsedTime s;
     timerInterval := timer; pollInterval := poll;
     poll_identifier := poll_identifier s;
     poll_requests := poll_requests s; pending_upload := pending_upload s |}.

Definition set_poll_identifier (v : jsstring) (s : State) : State :=
  {| keys := keys s; keysVerified := keysVerified s;
     isSettingsOpen := isSettingsOpen s; step := step s; file := file s;
     userContext := userContext s; metadata := metadata s;
     isGenerating := isGenerating s; uploadProgress := uploadProgress s;
     successUrl := successUrl s; errorMsg := errorMsg s;
     isVerifying := isVerifying s; elapsedTime := elapsedTime s;
     timerInterval := timerInterval s; pollInterval := pollInterval s;
     poll_identifier := v;
     poll_requests := poll_requests s; pending_upload := pending_upload s |}.

Definition log_request (v : jsstring) (s : State) : State :=
  {| keys := keys s; keysVerified := keysVerified s;
     isSettingsOpen := isSettingsOpen s; step := step s; file := file s;
     userContext := userContext s; metadata := metadata s;
     isGenerating := isGenerating s; uploadProgress := uploadProgress s;
     successUrl := successUrl s; errorMsg := errorMsg s;
     isVerifying := isVerifying s; elapsedTime := elapsedTime s;
     timerInterval := timerInterval s; pollInterval := pollInterval s;
     poll_identifier := poll_identifier s;
     poll_requests := poll_requests s ++ [v];
     pending_upload := pending_upload s |}.

Definition set_pending_upload (v : option jsstring) (s : State) : State :=
  {| keys := keys s; keysVerified := keysVerified s;
     isSettingsOpen := isSettingsOpen s; step := step s; file := file s;
     userContext := userContext s; metadata := metadata s;
     isGenerating := isGenerating s; uploadProgress := uploadProgress s;
     successUrl := successUrl s; errorMsg := errorMsg s;
     isVerifying := isVerifying s; elapsedTime := elapsedTime s;
     timerInterval := timerInterval s; pollInterval := pollInterval s;
     poll_identifier := poll_identifier s;
     poll_requests := poll_requests s; pending_upload := v |}.


(** *** The polling effect, [useEffect(..., [step, successUrl])] *)

(** The cleanup function returned by the effect. *)
Definition effect_cleanup (s : State) : State := set_intervals false false s.

(** The effect body.  The immediate [checkStatus()] issues its request
    here; the answer arrives as a later event. *)
Definition effect_body (s : State) : State :=
  match step s, successUrl s with
  | SUCCESS, Some url =>
      if truthy url then
        let s := set_isVerifying true s in
        let s := set_elapsedTime 0 s in
        let identifier := pop (split 47 url) in
        if truthy identifier then
          let s := set_poll_identifier identifier s in
          let s := log_request identifier s in
          set_intervals true true s
        else s
      else s
  | _, _ => s
  end.

Definition option_eqb (a b : option jsstring) : bool :=
  match a, b with
  | None, None => true
  | Some x, Some y => JS.eqb x y
  | _, _ => false
  end.

(** After a render the effect is run again when one of its dependencies
    differs from the previous render's: cleanup first, then the body. *)
Definition run_effect (before after : State) : State :=
  if AppStep_eqb (step before) (step after)
     && option_eqb (successUrl before) (successUrl after)
  then after
  else effect_body (effect_cleanup after).

(** The timer callback, [setElapsedTime(prev => prev + 1)]. *)
Definition timer_tick (s : State) : State :=
  if timerInterval s then set_elapsedTime (elapsedTime s + 1) s else s.

(** The poll interval fires: [checkStatus] issues a request. *)
Definition poll_tick (s : State) : State :=
  if pollInterval s then log_request (poll_identifier s) s else s.

(** [checkStatus] resumes with the answer to its request. *)
Definition checkStatus (r : fetch_result) (s : State) : State :=
  if check_succeeds (poll_identifier s) r then
    let s := set_isVerifying false s in
    set_intervals false false s
  else s.

(** *** Handlers *)

Definition handleKeysSave (newKeys : ArchiveKeys) (verified : bool)
    (s : State) : State :=
  set_keys (Some newKeys) verified s.

(** [handleFileSelect] up to its [await]. *)
Definition handleFileSelect (selectedFile : File) (s : State) : State :=
  let s := set_file (Some selectedFile) s in
  let s := set_step REVIEW s in
  set_isGenerating true s.

(** [handleFileSelect] after its [await]. *)
Definition handleFileSelect_resume (generated : ArchiveMetadata) (s : State)
  : State :=
  let s := set_metadata generated s in
  set_isGenerating false s.

(** [handleUpload] up to its [await]; [timestamp] is [Date.now()] at the
    call of [uploadToInternetArchive]. *)
Definition handleUpload (timestamp : Z) (s : State) : State :=
  match file s, keys s with
  | Some _, Some _ =>
      let s := set_step UPLOADING s in
      let s := set_uploadProgress 0%Q s in
      set_pending_upload
        (Some (generateIdentifier timestamp (title (metadata s)))) s
  | _, None => set_isSettingsOpen true s
  | None, Some _ => s
  end.

(** [err.message || 'Unknown error occurred']. *)
Definition error_message (e : exn) : jsstring :=
  match e with
  | Error message =>
      if truthy message then message else js "Unknown error occurred"
  | TypeError | SyntaxError => js "Unknown error occurred"
  end.

(** [handleUpload] after its [await]. *)
Definition handleUpload_resume (outcome : xhr_outcome) (s : State) : State :=
  match pending_upload s with
  | None => s
  | Some identifier =>
      let s := set_pending_upload None s in
      match upload_settle identifier outcome with
      | Resolved url =>
          let s := set_successUrl (Some url) s in
          set_step SUCCESS s
      | Rejected err =>
          let s := set_errorMsg (Some (error_message err)) s in
          set_step ERROR s
      end
  end.

Definition handleReset (s : State) : State :=
  let s := set_file None s in
  let s := set_userContext [] s in
  let s := set_step UPLOAD s in
  let s := set_successUrl None s in
  let s := set_errorMsg None s in
  let s := set_uploadProgress 0%Q s in
  let s := set_isVerifying false s in
  set_elapsedTime 0 s.

(** The texts [isAuthError] looks for. *)
Definition marker_403 : jsstring := js "403".
Definition marker_access_key : jsstring := js "InvalidAccessKeyId".
Definition marker_signature : jsstring := js "SignatureDoesNotMatch".

Definition isAuthError (msg : option jsstring) : bool :=
  match msg with
  | None => false
  | Some msg =>
      if negb (truthy msg) then false
      else includes msg marker_403
           || includes msg marker_access_key
           || includes msg marker_signature
  end.

(** What is rendered: the review panel ([step === REVIEW && file]), its
    form (once the metadata is generated), the success panel
    ([step === SUCCESS && successUrl]). *)
Definition review_rendered (s : State) : bool :=
  AppStep_eqb (step s) REVIEW
  && match file s with Some _ => true | None => false end.

Definition review_form_rendered (s : State) : bool :=
  review_rendered s && negb (isGenerating s).

Definition success_rendered (s : State) : bool :=
  AppStep_eqb (step s) SUCCESS
  && match successUrl s with Some url => truthy url | None => false end.

(** The skip button is rendered in the verification panel of the success
    step once more than twenty seconds have elapsed. *)
Definition skip_rendered (s : State) : bool :=
  success_rendered s && isVerifying s && (20 <? elapsedTime s).

(** Its [onClick], [() => setIsVerifying(false)]. *)
Definition skip_verification (s : State) : State := set_isVerifying false s.

(** *** Events *)

Inductive event :=
| SaveKeys (newKeys : ArchiveKeys) (verified : bool)
| SelectFile (f : File)
| MetadataGenerated (m : ArchiveMetadata)
| EditMetadata (m : ArchiveMetadata)
| EditContext (text : jsstring)
| ClickBack
| ClickPublish (timestamp : Z)
| UploadProgress (percent : Q)
| UploadSettled (outcome : xhr_outcome)
| TimerTick
| PollTick
| PollAnswer (r : fetch_result)
| ClickSkip
| ClickReset
| ClickTryAgain.

(** The state change an event makes by itself. *)
Definition handle (ev : event) (s : State) : State :=
  match ev with
  | SaveKeys k v => handleKeysSave k v s
  | SelectFile f =>
      if AppStep_eqb (step s) UPLOAD then handleFileSelect f s else s
  | MetadataGenerated m => handleFileSelect_resume m s
  | EditMetadata m =>
      if review_form_rendered s then set_metadata m s else s
  | EditContext text =>
      if AppStep_eqb (step s) UPLOAD then set_userContext text s else s
  | ClickBack =>
      if review_rendered s then set_step UPLOAD s else s
  | ClickPublish timestamp =>
      if review_form_rendered s then handleUpload timestamp s else s
  | UploadProgress p =>
      match pending_upload s with
      | Some _ => set_uploadProgress p s
      | None => s
      end
  | UploadSettled outcome => handleUpload_resume outcome s
  | TimerTick => timer_tick s
  | PollTick => poll_tick s
  | PollAnswer r => checkStatus r s
  | ClickSkip => if skip_rendered s then skip_verification s else s
  | ClickReset =>
      if success_rendered s then handleReset s else s
  | ClickTryAgain =>
      if AppStep_eqb (step s) ERROR then set_step REVIEW s else s
  end.

(** One event: the handler, the render, the effect. *)
Definition dispatch (s : State) (ev : event) : State :=
  run_effect s (handle ev s).

Definition run (s : State) (evs : list event) : State :=
  List.fold_left dispatch evs s.

(** What a polling session shows to the outside. *)
Definition observable (s : State) : bool * N * list jsstring :=
  (isVerifying s, elapsedTime s, poll_requests s).

End App.

Import App.

(** ** Notions the properties are stated with *)

(** A string starts trimmed when its first character is not of the class. *)
Definition starts_trimmed (cls : N -> bool) (s : jsstring) : bool :=
  match s with
  | [] => true
  | c :: _ => negb (cls c)
  end.

(** A string is collapsed when every character of the class is the
    separator [sep] and no two of them are adjacent.  [prev] tells that
    the character before the string is of the class. *)
Fixpoint collapsed (cls : N -> bool) (sep : N) (prev : bool) (s : jsstring)
  : bool :=
  match s with
  | [] => true
  | c :: s' =>
      if cls c then (c =? sep) && negb prev && collapsed cls sep true s'
      else collapsed cls sep false s'
  end.

Definition is_latin1 (c : N) : bool := negb (outside_latin1 c).

(** The string holds the escape [%h1h2]. *)
Definition holds_escape (h1 h2 : N) (s : jsstring) : Prop :=
  exists l r, s = l ++ percent :: h1 :: h2 :: r.

(** An escape that decodes starts the string, or stands somewhere in it. *)
Definition decodable_here (s : jsstring) : bool :=
  match s with
  | c :: h1 :: h2 :: _ =>
      (c =? percent) && is_hex h1 && is_hex h2
      && negb (N.testbit (16 * hex_value h1 + hex_value h2) 7)
  | _ => false
  end.

Fixpoint has_decodable (s : jsstring) : bool :=
  match s with
  | [] => false
  | _ :: tl => decodable_here s || has_decodable tl
  end.

(** [c] does not occur in [p]. *)
Definition foreign (p : jsstring) (c : N) : bool :=
  negb (List.existsb (N.eqb c) p).

(** The algorithm in the words of the design: the title is lowercased, cut
    into its maximal runs of characters inside and outside [[a-z0-9]], every
    run outside is replaced by one hyphen, the hyphens at both ends are
    stripped, the result is truncated to 50 characters, prefixed with the
    namespace tag and suffixed with the time in milliseconds. *)
Module IdentifierSpec.






End IdentifierSpec.

(** [[a-z0-9-]]. *)
Definition is_identifier_char (c : N) : bool :=
  is_lower c || is_digit c || (c =? hyphen).

(** The answer that makes a check succeed: a successful response whose
    document names the requested identifier and lists a file of format PNG. *)
Definition artifact_ready (requested : jsstring) (r : fetch_result) : Prop :=
  exists data m files f,
    r = Response true (JsonData data)
    /\ doc_metadata data = Some m
    /\ identifier m = Some requested
    /\ doc_files data = Some files
    /\ In f files
    /\ format f = Some PNG.

(** ** Sample data *)

Definition demo_keys : ArchiveKeys := {| accessKey := js "AK"; secretKey := js "SK" |}.
Definition demo_file : File := {| name := js "talk.mp3"; size := 1000 |}.
Definition demo_meta : ArchiveMetadata :=
  {| title := js "My Talk"; description := js "d"; tags := [js "a"]; creator := js "me" |}.

Definition demo_trace : list event :=
  [SaveKeys demo_keys true; SelectFile demo_file; MetadataGenerated demo_meta;
   ClickPublish 1700000000000; UploadProgress 50; UploadSettled (Load 200 [])].

(** The keys of the failing input of C9: an access key typed in Cyrillic. *)
Definition cyrillic_keys : ArchiveKeys :=
  {| accessKey := [1082; 1083; 1102; 1095]; secretKey := js "s3cr3t" |}.


(** A session that reaches the skip button: keys saved, a file selected and
    published, the upload answered with 200, twenty-one seconds of waiting. *)
Definition waiting_session : State :=
  run initial (demo_trace ++ List.repeat TimerTick 21).


(** ** The rest of the orchestrator: elapsed time, link status, stored keys *)

Module AppView.



Inductive LinkStatus := LinkNone | LinkValid | LinkNotebook.

(** [p] starts the string and a character other than white space follows. *)
Definition followed_by_nonspace (p s : jsstring) : bool :=
  starts_with p s
  && match List.skipn (List.length p) s with
     | c :: _ => negb (is_space c)
     | [] => false
     end.

(** [/(https?:\/\/[^\s]+)/] matched at the first character. *)
Definition url_here (s : jsstring) : bool :=
  followed_by_nonspace (js "http://") s
  || followed_by_nonspace (js "https://") s.

(** [/(https?:\/\/[^\s]+)/g.test(userContext)]. *)
Fixpoint hasUrl (s : jsstring) : bool :=
  url_here s
  || match s with
     | [] => false
     | _ :: s' => hasUrl s'
     end.

(** The effect on [userContext]: the value it gives to [linkStatus]. *)
Definition linkStatus (userContext : jsstring) : LinkStatus :=
  if negb (truthy userContext) then LinkNone
  else if hasUrl userContext then
    if includes userContext (js "notebooklm.google")
       || includes userContext (js "docs.google.com")
    then LinkNotebook
    else LinkValid
  else LinkNone.

(** The two items of [localStorage].  [ia_keys] holds the JSON text of the
    keys object; it is represented by the object that text parses to. *)
Record Storage := {
  ia_keys : option ArchiveKeys;
  ia_keys_verified : option jsstring
}.

(** The effect run once at start. *)
Definition load_saved_keys (st : Storage) (s : State) : State :=
  match ia_keys st with
  | Some savedKeys =>
      set_keys (Some savedKeys)
        (match ia_keys_verified st with
         | Some savedVerified => JS.eqb savedVerified (js "true")
         | None => false
         end)
        s
  | None => s
  end.

End AppView.

Import AppView.

(** ** components/SettingsModal.tsx *)

Module SettingsModal.

Inductive status := idle | success | error.

Record state := {
  accessKey : jsstring;
  secretKey : jsstring;
  verifying : bool;
  verificationStatus : status
}.

Definition initial : state :=
  {| accessKey := []; secretKey := []; verifying := false;
     verificationStatus := idle |}.



Definition setVerifying (v : bool) (m : state) : state :=
  {| accessKey := accessKey m; secretKey := secretKey m; verifying := v;
     verificationStatus := verificationStatus m |}.

Definition setVerificationStatus (v : status) (m : state) : state :=
  {| accessKey := accessKey m; secretKey := secretKey m;
     verifying := verifying m; verificationStatus := v |}.




(** [handleTestKeys] up to its [await]: the new state and, when the probe is
    started, the keys it is called with. *)
Definition handleTestKeys (m : state) : state * option ArchiveKeys :=
  let cleanedAccess := trim (accessKey m) in
  let cleanedSecret := trim (secretKey m) in
  if negb (truthy cleanedAccess) || negb (truthy cleanedSecret) then (m, None)
  else
    let m := setVerifying true m in
    let m := setVerificationStatus idle m in
    (m, Some (Build_ArchiveKeys cleanedAccess cleanedSecret)).

(** [handleTestKeys] after its [await], with [catch] and [finally]. *)
Definition handleTestKeys_resume (result : settled bool) (m : state) : state :=
  let m :=
    match result with
    | Resolved isValid =>
        setVerificationStatus (if isValid then success else error) m
    | Rejected _ => setVerificationStatus error m
    end in
  setVerifying false m.

(** The test button with the answer the probe's request gets. *)
Definition test_keys (outcome : xhr_outcome) (m : state) : state :=
  match handleTestKeys m with
  | (m', Some keys) => handleTestKeys_resume (verifyCredentials keys outcome) m'
  | (m', None) => m'
  end.

Definition status_eqb (a b : status) : bool :=
  match a, b with
  | idle, idle | success, success | error, error => true
  | _, _ => false
  end.

(** What [handleSave] does: the alert, or the two items written, [onSave]
    ([handleKeysSave] of the orchestrator) and [onClose]. *)
Inductive save_result :=
| Alerted
| Saved (st : Storage) (app : State).

Definition handleSave (m : state) (app : State) : save_result :=
  let cleanedAccess := trim (accessKey m) in
  let cleanedSecret := trim (secretKey m) in
  if negb (truthy cleanedAccess) || negb (truthy cleanedSecret) then Alerted
  else
    let newKeys := Build_ArchiveKeys cleanedAccess cleanedSecret in
    let isVerified := status_eqb (verificationStatus m) success in
    Saved
      {| ia_keys := Some newKeys;
         ia_keys_verified := Some (js (if isVerified then "true" else "false")) |}
      (set_isSettingsOpen false (handleKeysSave newKeys isVerified app)).

End SettingsModal.

(** ** Notions of the further properties *)

(** The title as it stands in the identifier. *)
Definition identifier_slug (title : jsstring) : jsstring :=
  List.firstn 50
    (drop_trailing is_hyphen
       (drop_leading is_hyphen
          (replace_runs not_lower_alnum [hyphen] false (toLowerCase title)))).

(** [[a-z0-9]]. *)
Definition is_lower_alnum (c : N) : bool := is_lower c || is_digit c.

(** A character of the allowed set of object names, or the underscore. *)
Definition is_object_name_char (c : N) : bool :=
  negb (not_filename_char c) || (c =? underscore).

(** A character a header value may hold: up to 0xFF, not NUL, LF or CR. *)
Definition is_header_char (c : N) : bool :=
  negb (outside_latin1 c) && negb ((c =? 0) || (c =? 10) || (c =? 13)).

(** The intervals are set together, and only under the success panel. *)
Definition intervals_scoped (s : State) : Prop :=
  timerInterval s = pollInterval s
  /\ (timerInterval s = true -> success_rendered s = true).


(** The text holds [http://] or [https://] followed by a character that is
    not white space. *)
Definition holds_url (s : jsstring) : Prop :=
  exists l c r,
    is_space c = false
    /\ (s = l ++ js "http://" ++ c :: r \/ s = l ++ js "https://" ++ c :: r).

(** [[a-zA-Z0-9]]. *)
Definition is_alnum (c : N) : bool := is_lower c || is_upper c || is_digit c.

(** A character other than the separator. *)
Definition free_of (sep c : N) : bool := negb (c =? sep).

Definition slash : N := 47.
Definition colon : N := 58.

(** The tags as they are sent. *)
Definition cleanTags (metadata : ArchiveMetadata) : list jsstring :=
  List.filter truthy (List.map sanitizeHeaderValue (tags metadata)).

(** * Properties *)

(** ** The program on sample inputs *)

Example sanitize_nested : sanitizeHeaderValue (js "a%2520b") = js "a b".
Proof. reflexivity. Qed.

Example sanitize_deep :
  sanitizeHeaderValue (js "a%25252525252520b") = js "a%2520b".
Proof. reflexivity. Qed.

Example identifier_example :
  generateIdentifier 1700000000000 (js "  My Podcast: Ep. 1! ")
  = js "notebooklm-archive-my-podcast-ep-1-1700000000000".
Proof. reflexivity. Qed.

Example identifier_empty_title :
  generateIdentifier 1700000000000 [] = js "notebooklm-archive--1700000000000".
Proof. reflexivity. Qed.

Example safeFilename_plain : safeFilename (js "my song.mp3") = js "my_song.mp3".
Proof. reflexivity. Qed.

Example safeFilename_no_dot : safeFilename (js "song") = js "song.song".
Proof. reflexivity. Qed.

Example safeFilename_trailing_dot : safeFilename (js "song.") = js "song..mp3".
Proof. reflexivity. Qed.

Example safeFilename_raw_ext : safeFilename (js "mix.m p3") = js "mix.m p3".
Proof. reflexivity. Qed.

(** ** Comparisons and character classes *)

Ltac cmp_cases :=
  repeat match goal with
  | |- context [N.eqb ?a ?b] => destruct (N.eqb_spec a b)
  | |- context [N.leb ?a ?b] => destruct (N.leb_spec a b)
  | |- context [N.ltb ?a ?b] => destruct (N.ltb_spec a b)
  | H : context [N.eqb ?a ?b] |- _ => destruct (N.eqb_spec a b)
  | H : context [N.leb ?a ?b] |- _ => destruct (N.leb_spec a b)
  | H : context [N.ltb ?a ?b] |- _ => destruct (N.ltb_spec a b)
  end;
  simpl in *; try congruence; try lia.

Lemma is_hex_cases (c : N) :
  is_hex c = true ->
  In c [48; 49; 50; 51; 52; 53; 54; 55; 56; 57;
        65; 66; 67; 68; 69; 70; 97; 98; 99; 100; 101; 102].
Proof.
  unfold is_hex, is_digit. intros H.
  assert (Hr : 48 <= c <= 57 \/ 65 <= c <= 70 \/ 97 <= c <= 102)
    by (revert H; cmp_cases).
  clear H. simpl.
  destruct Hr as [Hr | [Hr | Hr]].
  - assert (Hc : c = 48 \/ c = 49 \/ c = 50 \/ c = 51 \/ c = 52 \/ c = 53
                 \/ c = 54 \/ c = 55 \/ c = 56 \/ c = 57) by lia.
    intuition auto.
  - assert (Hc : c = 65 \/ c = 66 \/ c = 67 \/ c = 68 \/ c = 69 \/ c = 70)
      by lia.
    intuition auto 20.
  - assert (Hc : c = 97 \/ c = 98 \/ c = 99 \/ c = 100 \/ c = 101 \/ c = 102)
      by lia.
    intuition auto 30.
Qed.

Ltac hex_cases H :=
  apply is_hex_cases in H; simpl in H;
  repeat (destruct H as [H | H]; [subst | ]); try contradiction.

Lemma is_hex_not_percent (c : N) : is_hex c = true -> (c =? percent) = false.
Proof. intros H. hex_cases H; reflexivity. Qed.

Lemma is_hex_not_space (c : N) : is_hex c = true -> is_space c = false.
Proof. intros H. hex_cases H; reflexivity. Qed.

Lemma is_hex_not_newline (c : N) : is_hex c = true -> is_newline c = false.
Proof. intros H. hex_cases H; reflexivity. Qed.

Lemma is_hex_latin1 (c : N) : is_hex c = true -> outside_latin1 c = false.
Proof. intros H. hex_cases H; reflexivity. Qed.

Lemma hex_value_bound (c : N) : is_hex c = true -> hex_value c <= 15.
Proof. intros H. hex_cases H; vm_compute; discriminate. Qed.

Lemma newline_is_space (c : N) : is_newline c = true -> is_space c = true.
Proof.
  unfold is_newline. intros H.
  assert (Hc : c = 13 \/ c = 10) by (revert H; cmp_cases).
  destruct Hc; subst; reflexivity.
Qed.

(** ** Equality of strings *)

Lemma eqb_refl (a : jsstring) : JS.eqb a a = true.
Proof. induction a as [| x a IH]; simpl; [ | rewrite N.eqb_refl ]; auto. Qed.

Lemma eqb_eq (a b : jsstring) : JS.eqb a b = true <-> a = b.
Proof.
  split.
  - revert b. induction a as [| x a IH]; intros [| y b]; simpl; try discriminate; auto.
    intros H. apply andb_true_iff in H. destruct H as [Hx Hab].
    apply N.eqb_eq in Hx. subst. f_equal. auto.
  - intros ->. apply eqb_refl.
Qed.

Lemma eqb_neq (a b : jsstring) : a <> b -> JS.eqb a b = false.
Proof.
  intros H. destruct (JS.eqb a b) eqn:E; auto.
  apply eqb_eq in E. contradiction.
Qed.

(** ** The header sanitizer *)

Section Sanitizer.

(** Induction following the recursion of [decode_pass]. *)
Lemma escape_scan_ind (P : jsstring -> Prop) :
  P [] ->
  (forall c, P [c]) ->
  (forall c d, P [c; d]) ->
  (forall c h1 h2 rest, P rest -> P (h1 :: h2 :: rest) -> P (c :: h1 :: h2 :: rest)) ->
  forall s, P s.
Proof.
  intros Hnil Hone Htwo Hstep.
  assert (H : forall n s, (List.length s <= n)%nat -> P s).
  { induction n as [| n IH]; intros s Hlen.
    - destruct s; [ exact Hnil | simpl in Hlen; lia ].
    - destruct s as [| c [| h1 [| h2 rest]]]; auto.
      apply Hstep; apply IH; simpl in *; lia. }
  intros s. apply (H (List.length s)). lia.
Qed.

Lemma replacer_length (h1 h2 : N) : (List.length (replacer h1 h2) <= 3)%nat.
Proof.
  unfold replacer, decodeURIComponent_escape.
  destruct (N.testbit _ 7); simpl; lia.
Qed.

(** The replacer either keeps the escape or shortens it. *)
Lemma replacer_cases (h1 h2 : N) :
  replacer h1 h2 = [percent; h1; h2] \/ List.length (replacer h1 h2) = 1%nat.
Proof.
  unfold replacer, decodeURIComponent_escape.
  destruct (N.testbit _ 7); simpl; auto.
Qed.

Lemma decode_pass_length (s : jsstring) :
  (List.length (decode_pass s) <= List.length s)%nat.
Proof.
  induction s as [| c | c d | c h1 h2 rest IHrest IHtl] using escape_scan_ind;
    try (simpl; lia).
  change (decode_pass (c :: h1 :: h2 :: rest))
    with (if (c =? percent) && is_hex h1 && is_hex h2
          then replacer h1 h2 ++ decode_pass rest
          else c :: decode_pass (h1 :: h2 :: rest)).
  destruct ((c =? percent) && is_hex h1 && is_hex h2).
  - rewrite length_app. pose proof (replacer_length h1 h2). simpl. lia.
  - simpl in *. lia.
Qed.

(** A pass that changes the string shortens it. *)
Lemma decode_pass_fixed_or_shorter (s : jsstring) :
  decode_pass s = s \/ (List.length (decode_pass s) < List.length s)%nat.
Proof.
  induction s as [| c | c d | c h1 h2 rest IHrest IHtl] using escape_scan_ind;
    try (left; reflexivity).
  change (decode_pass (c :: h1 :: h2 :: rest))
    with (if (c =? percent) && is_hex h1 && is_hex h2
          then replacer h1 h2 ++ decode_pass rest
          else c :: decode_pass (h1 :: h2 :: rest)).
  destruct ((c =? percent) && is_hex h1 && is_hex h2) eqn:E.
  - apply andb_true_iff in E. destruct E as [E _].
    apply andb_true_iff in E. destruct E as [E _].
    apply N.eqb_eq in E. subst c.
    pose proof (decode_pass_length rest) as Hlen.
    destruct (replacer_cases h1 h2) as [Hk | Hk].
    + rewrite Hk. destruct IHrest as [-> | IH].
      * left. reflexivity.
      * right. simpl. lia.
    + right. rewrite length_app, Hk. simpl. lia.
  - destruct IHtl as [-> | IH].
    + left. reflexivity.
    + right. simpl in *. lia.
Qed.

Lemma decode_pass_no_escape (s : jsstring) :
  has_escape s = false -> decode_pass s = s.
Proof.
  induction s as [| c | c d | c h1 h2 rest IHrest IHtl] using escape_scan_ind;
    try reflexivity.
  change (has_escape (c :: h1 :: h2 :: rest))
    with (((c =? percent) && is_hex h1 && is_hex h2) || has_escape (h1 :: h2 :: rest)).
  change (decode_pass (c :: h1 :: h2 :: rest))
    with (if (c =? percent) && is_hex h1 && is_hex h2
          then replacer h1 h2 ++ decode_pass rest
          else c :: decode_pass (h1 :: h2 :: rest)).
  intros H. apply orb_false_iff in H. destruct H as [H1 H2].
  rewrite H1. f_equal. auto.
Qed.

Lemma decode_loop_length (budget : nat) (s : jsstring) :
  (List.length (decode_loop budget s) <= List.length s)%nat.
Proof.
  revert s. induction budget as [| b IH]; intros s; simpl; [ lia | ].
  destruct (has_escape s); [ | lia ].
  pose proof (decode_pass_length s).
  destruct (JS.eqb (decode_pass s) s); [ lia | ].
  specialize (IH (decode_pass s)). lia.
Qed.

(** When a pass leaves the string as it is, the loop returns it. *)
Lemma decode_loop_fixed (budget : nat) (s : jsstring) :
  decode_pass s = s -> decode_loop budget s = s.
Proof.
  intros H. destruct budget as [| b]; simpl; auto.
  destruct (has_escape s); auto.
  rewrite H, eqb_refl. reflexivity.
Qed.

(** When a pass changes the string, the loop (with a pass left) returns a
    shorter one. *)
Lemma decode_loop_shorter (budget : nat) (s : jsstring) :
  decode_pass s <> s ->
  (List.length (decode_loop (S budget) s) < List.length s)%nat.
Proof.
  intros H. simpl.
  destruct (has_escape s) eqn:E.
  - rewrite (eqb_neq _ _ H).
    pose proof (decode_loop_length budget (decode_pass s)).
    destruct (decode_pass_fixed_or_shorter s); [ contradiction | lia ].
  - apply decode_pass_no_escape in E. contradiction.
Qed.

End Sanitizer.

(** ** Runs, trimming and their normal forms *)

Section Runs.

Variable cls : N -> bool.

Lemma replace_runs_length (by_ : jsstring) (in_run : bool) (s : jsstring) :
  (List.length by_ <= 1)%nat ->
  (List.length (replace_runs cls by_ in_run s) <= List.length s)%nat.
Proof.
  intros Hby. revert in_run.
  induction s as [| c s IH]; intros in_run; simpl; [ lia | ].
  destruct (cls c).
  - destruct in_run.
    + specialize (IH true). lia.
    + rewrite length_app. specialize (IH true). lia.
  - specialize (IH false). simpl. lia.
Qed.

Lemma replace_runs_none (by_ : jsstring) (in_run : bool) (s : jsstring) :
  List.forallb (fun c => negb (cls c)) s = true ->
  replace_runs cls by_ in_run s = s.
Proof.
  revert in_run. induction s as [| c s IH]; intros in_run H; simpl in *; auto.
  apply andb_true_iff in H. destruct H as [Hc Hs].
  destruct (cls c); [ discriminate | ]. f_equal. auto.
Qed.

Lemma drop_leading_length (s : jsstring) :
  (List.length (drop_leading cls s) <= List.length s)%nat.
Proof.
  induction s as [| c s IH]; simpl; [ lia | ].
  destruct (cls c); simpl; lia.
Qed.

Lemma drop_trailing_length (s : jsstring) :
  (List.length (drop_trailing cls s) <= List.length s)%nat.
Proof.
  induction s as [| c s IH]; simpl; [ lia | ].
  destruct (drop_trailing cls s); [ destruct (cls c) | ]; simpl in *; lia.
Qed.

Lemma drop_leading_trimmed (s : jsstring) :
  starts_trimmed cls (drop_leading cls s) = true.
Proof.
  induction s as [| c s IH]; simpl; auto.
  destruct (cls c) eqn:E; auto. simpl. rewrite E. reflexivity.
Qed.

Lemma drop_leading_fixed (s : jsstring) :
  starts_trimmed cls s = true -> drop_leading cls s = s.
Proof.
  destruct s as [| c s]; simpl; auto.
  destruct (cls c); [ discriminate | reflexivity ].
Qed.

Lemma drop_trailing_starts_trimmed (s : jsstring) :
  starts_trimmed cls s = true -> starts_trimmed cls (drop_trailing cls s) = true.
Proof.
  destruct s as [| c s]; simpl; auto.
  destruct (cls c) eqn:E; [ discriminate | ]. intros _.
  destruct (drop_trailing cls s); simpl; rewrite E; reflexivity.
Qed.

Lemma drop_trailing_idempotent (s : jsstring) :
  drop_trailing cls (drop_trailing cls s) = drop_trailing cls s.
Proof.
  induction s as [| c s IH]; simpl; auto.
  destruct (drop_trailing cls s) as [| d t] eqn:E.
  - destruct (cls c) eqn:Ec; simpl; auto. rewrite Ec. reflexivity.
  - simpl in *. rewrite IH. reflexivity.
Qed.

Lemma strip_both_idempotent (s : jsstring) :
  drop_trailing cls (drop_leading cls (drop_trailing cls (drop_leading cls s)))
  = drop_trailing cls (drop_leading cls s).
Proof.
  rewrite (drop_leading_fixed (drop_trailing cls (drop_leading cls s))).
  - apply drop_trailing_idempotent.
  - apply drop_trailing_starts_trimmed, drop_leading_trimmed.
Qed.

(** Preservation of a property of all characters. *)
Variable P : N -> bool.

Lemma replace_runs_forallb (by_ : jsstring) (in_run : bool) (s : jsstring) :
  List.forallb P by_ = true -> List.forallb P s = true ->
  List.forallb P (replace_runs cls by_ in_run s) = true.
Proof.
  intros Hby. revert in_run.
  induction s as [| c s IH]; intros in_run H; simpl in *; auto.
  apply andb_true_iff in H. destruct H as [Hc Hs].
  destruct (cls c).
  - destruct in_run; auto.
    rewrite forallb_app, Hby. simpl. auto.
  - simpl. rewrite Hc. simpl. auto.
Qed.

Lemma drop_leading_forallb (s : jsstring) :
  List.forallb P s = true -> List.forallb P (drop_leading cls s) = true.
Proof.
  induction s as [| c s IH]; simpl; auto.
  intros H. destruct (cls c); auto.
  apply andb_true_iff in H. destruct H. auto.
Qed.

Lemma drop_trailing_forallb (s : jsstring) :
  List.forallb P s = true -> List.forallb P (drop_trailing cls s) = true.
Proof.
  induction s as [| c s IH]; simpl; auto.
  intros H. apply andb_true_iff in H. destruct H as [Hc Hs].
  specialize (IH Hs).
  destruct (drop_trailing cls s).
  - destruct (cls c); simpl; auto. rewrite Hc. reflexivity.
  - simpl in *. rewrite Hc. simpl. exact IH.
Qed.

Variable sep : N.
Hypothesis sep_in_class : cls sep = true.

Lemma replace_runs_collapsed (in_run : bool) (s : jsstring) :
  collapsed cls sep in_run (replace_runs cls [sep] in_run s) = true.
Proof.
  revert in_run. induction s as [| c s IH]; intros in_run; simpl; auto.
  destruct (cls c) eqn:E.
  - destruct in_run; auto.
    simpl. rewrite sep_in_class, N.eqb_refl. simpl. auto.
  - simpl. rewrite E. auto.
Qed.

Lemma collapsed_fixed (in_run : bool) (s : jsstring) :
  collapsed cls sep in_run s = true -> replace_runs cls [sep] in_run s = s.
Proof.
  revert in_run. induction s as [| c s IH]; intros in_run H; simpl in *; auto.
  destruct (cls c).
  - apply andb_true_iff in H. destruct H as [H Hs].
    apply andb_true_iff in H. destruct H as [Hc Hp].
    apply N.eqb_eq in Hc. subst c.
    destruct in_run; [ discriminate | ].
    simpl. f_equal. auto.
  - f_equal. auto.
Qed.

Lemma collapsed_weaken (prev : bool) (s : jsstring) :
  collapsed cls sep prev s = true -> collapsed cls sep false s = true.
Proof.
  destruct s as [| c s]; simpl; auto.
  destruct (cls c); auto.
  intros H. apply andb_true_iff in H. destruct H as [H Hs].
  apply andb_true_iff in H. destruct H as [Hc _].
  rewrite Hc, Hs. reflexivity.
Qed.

Lemma collapsed_tail (prev : bool) (c : N) (s : jsstring) :
  collapsed cls sep prev (c :: s) = true -> collapsed cls sep false s = true.
Proof.
  simpl. destruct (cls c).
  - intros H. apply andb_true_iff in H. destruct H as [_ Hs].
    eapply collapsed_weaken; eauto.
  - auto.
Qed.

Lemma drop_leading_collapsed (prev : bool) (s : jsstring) :
  collapsed cls sep prev s = true -> collapsed cls sep false (drop_leading cls s) = true.
Proof.
  revert prev. induction s as [| c s IH]; intros prev H; simpl; auto.
  destruct (cls c) eqn:E.
  - apply (IH false). eapply collapsed_tail; eauto.
  - eapply collapsed_weaken; eauto.
Qed.

Lemma drop_trailing_collapsed (prev : bool) (s : jsstring) :
  collapsed cls sep prev s = true -> collapsed cls sep prev (drop_trailing cls s) = true.
Proof.
  revert prev. induction s as [| c s IH]; intros prev H; simpl in *; auto.
  destruct (cls c) eqn:E.
  - apply andb_true_iff in H. destruct H as [H Hs].
    specialize (IH true Hs).
    destruct (drop_trailing cls s); simpl; auto.
    rewrite E, H. exact IH.
  - specialize (IH false H).
    destruct (drop_trailing cls s); simpl; rewrite E; auto.
Qed.

(** In a collapsed cls sep string the only character of the class is [sep]. *)
Lemma collapsed_class (prev : bool) (s : jsstring) :
  collapsed cls sep prev s = true ->
  List.forallb (fun c => negb (cls c) || (c =? sep)) s = true.
Proof.
  revert prev. induction s as [| c s IH]; intros prev H; simpl in *; auto.
  destruct (cls c).
  - apply andb_true_iff in H. destruct H as [H Hs].
    apply andb_true_iff in H. destruct H as [Hc _].
    rewrite Hc. simpl. eauto.
  - simpl. eauto.
Qed.

End Runs.

(** ** Idempotence of the sanitizer *)

Section SanitizerIdempotence.

(** Steps 2 to 4, applied to the result of the decoding loop. *)
Lemma sanitize_unfold (x : jsstring) :
  sanitizeHeaderValue x =
  trim (replace_runs is_space [space] false
          (replace_each outside_latin1 space
             (replace_runs is_newline [space] false (decode_loop 5 x)))).
Proof.
  unfold sanitizeHeaderValue. destruct x as [| c x]; reflexivity.
Qed.

Lemma replace_each_latin1 (s : jsstring) :
  List.forallb is_latin1 (replace_each outside_latin1 space s) = true.
Proof.
  induction s as [| c s IH]; simpl; auto.
  rewrite IH. unfold is_latin1 at 1.
  destruct (outside_latin1 c) eqn:E; [ reflexivity | rewrite E; reflexivity ].
Qed.

Lemma replace_each_fixed (s : jsstring) :
  List.forallb is_latin1 s = true -> replace_each outside_latin1 space s = s.
Proof.
  induction s as [| c s IH]; simpl; auto.
  intros H. apply andb_true_iff in H. destruct H as [Hc Hs].
  unfold is_latin1 in Hc. destruct (outside_latin1 c); [ discriminate | ].
  f_equal. auto.
Qed.

(** The shape of every output of the sanitizer. *)
Lemma sanitize_normal (x : jsstring) :
  collapsed is_space space false (sanitizeHeaderValue x) = true
  /\ List.forallb is_latin1 (sanitizeHeaderValue x) = true
  /\ trim (sanitizeHeaderValue x) = sanitizeHeaderValue x.
Proof.
  rewrite sanitize_unfold. unfold trim. repeat split.
  - apply drop_trailing_collapsed, (drop_leading_collapsed _ _ false).
    apply replace_runs_collapsed. reflexivity.
  - apply drop_trailing_forallb, drop_leading_forallb.
    apply replace_runs_forallb; [ reflexivity | ].
    apply replace_each_latin1.
  - apply strip_both_idempotent.
Qed.

Lemma collapsed_no_newline (s : jsstring) :
  collapsed is_space space false s = true ->
  List.forallb (fun c => negb (is_newline c)) s = true.
Proof.
  intros H. apply collapsed_class in H.
  apply forallb_forall. intros c Hin.
  rewrite forallb_forall in H. specialize (H c Hin).
  destruct (is_newline c) eqn:E; auto.
  rewrite (newline_is_space c E) in H. simpl in H.
  apply N.eqb_eq in H. subst c. discriminate.
Qed.

(** Steps 2 to 4 map a string of that shape to itself. *)
Lemma sanitize_fixed (y : jsstring) :
  collapsed is_space space false y = true ->
  List.forallb is_latin1 y = true ->
  trim y = y ->
  decode_pass y = y ->
  sanitizeHeaderValue y = y.
Proof.
  intros Hc Hl Ht Hd.
  rewrite sanitize_unfold, (decode_loop_fixed 5 y Hd).
  rewrite (replace_runs_none is_newline) by (apply collapsed_no_newline; exact Hc).
  rewrite (replace_each_fixed y Hl).
  rewrite (collapsed_fixed is_space space false y Hc).
  exact Ht.
Qed.

Lemma sanitize_length (x : jsstring) :
  (List.length (sanitizeHeaderValue x) <= List.length (decode_loop 5 x))%nat.
Proof.
  rewrite sanitize_unfold. unfold trim, replace_each.
  eapply Nat.le_trans; [ apply drop_trailing_length | ].
  eapply Nat.le_trans; [ apply drop_leading_length | ].
  eapply Nat.le_trans; [ apply replace_runs_length; simpl; lia | ].
  rewrite length_map.
  apply replace_runs_length. simpl. lia.
Qed.

End SanitizerIdempotence.

(** ** Escapes that still decode *)

Section DecodableEscapes.

Lemma has_decodable_cons (c : N) (s : jsstring) :
  has_decodable (c :: s) = decodable_here (c :: s) || has_decodable s.
Proof. reflexivity. Qed.

(** Behind a hexadecimal digit the search goes on. *)
Lemma has_decodable_hex (h : N) (s : jsstring) :
  is_hex h = true -> has_decodable (h :: s) = has_decodable s.
Proof.
  intros Hh. rewrite has_decodable_cons.
  destruct s as [| a [| b s]]; try reflexivity.
  unfold decodable_here. rewrite (is_hex_not_percent h Hh). reflexivity.
Qed.

(** A pass leaves a string as it is exactly when no escape in it decodes. *)
Lemma decode_pass_fixed_iff (s : jsstring) :
  decode_pass s = s <-> has_decodable s = false.
Proof.
  induction s as [| c | c d | c h1 h2 rest IHrest IHtl] using escape_scan_ind;
    try (split; reflexivity).
  change (decode_pass (c :: h1 :: h2 :: rest))
    with (if (c =? percent) && is_hex h1 && is_hex h2
          then replacer h1 h2 ++ decode_pass rest
          else c :: decode_pass (h1 :: h2 :: rest)).
  rewrite has_decodable_cons. unfold decodable_here.
  destruct ((c =? percent) && is_hex h1 && is_hex h2) eqn:E.
  - apply andb_true_iff in E. destruct E as [E H2].
    apply andb_true_iff in E. destruct E as [E H1].
    apply N.eqb_eq in E. subst c.
    rewrite (has_decodable_hex h1 _ H1), (has_decodable_hex h2 _ H2).
    unfold replacer, decodeURIComponent_escape.
    destruct (N.testbit (16 * hex_value h1 + hex_value h2) 7);
      cbn [andb orb negb app].
    + rewrite <- IHrest. split; [ intros H; injection H; auto | intros ->; reflexivity ].
    + split; [ | discriminate ].
      intros H. apply (f_equal (@List.length N)) in H. simpl in H.
      pose proof (decode_pass_length rest). lia.
  - cbn [andb orb]. rewrite <- IHtl.
    split; [ intros H; injection H; auto | intros ->; reflexivity ].
Qed.

(** Steps 2 to 4 create no escape: characters are replaced by blanks, runs
    of white space shrink to one blank, and the ends are cut. *)
Variable cls : N -> bool.
Variable blank : N.
Hypothesis blank_not_percent : (blank =? percent) = false.
Hypothesis blank_not_hex : is_hex blank = false.

Lemma replace_runs_head (s : jsstring) (x : N) (t : jsstring) :
  replace_runs cls [blank] false s = x :: t -> x <> blank ->
  exists s', s = x :: s' /\ t = replace_runs cls [blank] false s'.
Proof.
  intros H Hx. destruct s as [| c s]; simpl in H; [ discriminate | ].
  destruct (cls c).
  - injection H as H _. congruence.
  - injection H as -> <-. eauto.
Qed.

Lemma hex_not_blank (h : N) : is_hex h = true -> h <> blank.
Proof. intros H ->. congruence. Qed.

Lemma replace_runs_decodable (in_run : bool) (s : jsstring) :
  has_decodable (replace_runs cls [blank] in_run s) = true ->
  has_decodable s = true.
Proof.
  revert in_run. induction s as [| c s IH]; intros in_run H; [ exact H | ].
  rewrite has_decodable_cons. apply orb_true_iff.
  simpl in H. destruct (cls c) eqn:E.
  - right. destruct in_run; [ eauto | ].
    simpl app in H. rewrite has_decodable_cons in H.
    apply orb_true_iff in H. destruct H as [H | H]; [ | eauto ].
    exfalso. unfold decodable_here in H.
    destruct (replace_runs cls [blank] true s) as [| a [| b t]];
      try discriminate.
    rewrite blank_not_percent in H. discriminate.
  - rewrite has_decodable_cons in H.
    apply orb_true_iff in H. destruct H as [H | H]; [ left | eauto ].
    unfold decodable_here in H.
    destruct (replace_runs cls [blank] false s) as [| h1 [| h2 t]] eqn:Er;
      try discriminate.
    assert (H1 : is_hex h1 = true /\ is_hex h2 = true).
    { destruct (is_hex h1), (is_hex h2); auto;
        rewrite ?andb_false_r in H; simpl in H; try discriminate. }
    destruct H1 as [H1 H2].
    destruct (replace_runs_head s h1 (h2 :: t) Er (hex_not_blank h1 H1))
      as (s1 & -> & Et).
    symmetry in Et.
    destruct (replace_runs_head s1 h2 t Et (hex_not_blank h2 H2))
      as (s2 & -> & _).
    exact H.
Qed.

Lemma drop_leading_decodable (s : jsstring) :
  has_decodable (drop_leading cls s) = true -> has_decodable s = true.
Proof.
  induction s as [| c s IH]; simpl drop_leading; auto.
  destruct (cls c); auto.
  intros H. rewrite has_decodable_cons. rewrite (IH H). apply orb_true_r.
Qed.

(** What is dropped at the end is of the class, so the first three
    characters of the rest, if they are an escape, were there before. *)
Lemma drop_trailing_here (s : jsstring) :
  decodable_here (drop_trailing cls s) = true -> decodable_here s = true.
Proof.
  destruct s as [| c s]; [ auto | ].
  simpl drop_trailing.
  destruct (drop_trailing cls s) as [| a t] eqn:E1.
  - destruct (cls c); discriminate.
  - destruct s as [| a' s]; [ discriminate | ].
    simpl drop_trailing in E1.
    destruct (drop_trailing cls s) as [| b u] eqn:E2.
    + destruct (cls a'); [ discriminate | ].
      injection E1 as <- <-. discriminate.
    + injection E1 as <- <-.
      destruct s as [| b' s]; [ discriminate | ].
      simpl drop_trailing in E2.
      destruct (drop_trailing cls s).
      * destruct (cls b'); [ discriminate | ].
        injection E2 as <- <-. auto.
      * injection E2 as <- <-. auto.
Qed.

Lemma drop_trailing_decodable (s : jsstring) :
  has_decodable (drop_trailing cls s) = true -> has_decodable s = true.
Proof.
  induction s as [| c s IH]; [ auto | ].
  intros H. rewrite has_decodable_cons. apply orb_true_iff.
  destruct (decodable_here (drop_trailing cls (c :: s))) eqn:Eh.
  - left. apply drop_trailing_here. exact Eh.
  - right. apply IH.
    simpl drop_trailing in H, Eh.
    destruct (drop_trailing cls s) as [| a t].
    + destruct (cls c); discriminate.
    + rewrite has_decodable_cons, Eh in H. exact H.
Qed.

End DecodableEscapes.

Lemma replace_each_decodable (s : jsstring) :
  has_decodable (replace_each outside_latin1 space s) = true ->
  has_decodable s = true.
Proof.
  assert (Hp : forall c, ((if outside_latin1 c then space else c) =? percent)
                         = true -> (c =? percent) = true)
    by (intros c; destruct (outside_latin1 c); [ discriminate | auto ]).
  assert (Hh : forall c, is_hex (if outside_latin1 c then space else c) = true ->
                         (if outside_latin1 c then space else c) = c)
    by (intros c; destruct (outside_latin1 c); [ discriminate | auto ]).
  induction s as [| c s IH]; [ auto | ].
  unfold replace_each in *. simpl map.
  rewrite !has_decodable_cons. intros H.
  apply orb_true_iff in H. apply orb_true_iff.
  destruct H as [H | H]; [ left | right; auto ].
  destruct s as [| h1 [| h2 s]]; try discriminate.
  simpl map in H. unfold decodable_here in *.
  apply andb_true_iff in H. destruct H as [H Hb].
  apply andb_true_iff in H. destruct H as [H H2].
  apply andb_true_iff in H. destruct H as [H0 H1].
  pose proof (Hh h1 H1) as E1. pose proof (Hh h2 H2) as E2.
  rewrite E1, E2 in Hb. rewrite E1 in H1. rewrite E2 in H2.
  rewrite (Hp c H0), H1, H2, Hb. reflexivity.
Qed.

(** Whenever the decoding loop ends with a string in which no escape
    decodes any more (it has not run out of passes), the sanitizer's output
    is a fixed point of the sanitizer. *)
Lemma sanitize_idempotent_resolved (x : jsstring) :
  decode_pass (decode_loop 5 x) = decode_loop 5 x ->
  sanitizeHeaderValue (sanitizeHeaderValue x) = sanitizeHeaderValue x.
Proof.
  intros Hfix.
  destruct (sanitize_normal x) as (Hc & Hl & Ht).
  apply sanitize_fixed; try assumption.
  apply decode_pass_fixed_iff.
  apply decode_pass_fixed_iff in Hfix.
  destruct (has_decodable (sanitizeHeaderValue x)) eqn:E; auto.
  rewrite <- Hfix. symmetry.
  rewrite sanitize_unfold in E. unfold trim in E.
  apply (drop_trailing_decodable is_space) in E.
  apply (drop_leading_decodable is_space) in E.
  apply (replace_runs_decodable is_space space) in E;
    [ | reflexivity | reflexivity ].
  apply replace_each_decodable in E.
  apply (replace_runs_decodable is_newline space) in E;
    [ exact E | reflexivity | reflexivity ].
Qed.

(** C3, as stated, fails: an input whose escapes are nested more deeply than
    five passes resolve is sanitized to a string that still holds a decodable
    escape, and sanitizing that string decodes further. *)
Lemma sanitize_not_idempotent :
  sanitizeHeaderValue (js "a%25252525252520b") = js "a%2520b"
  /\ sanitizeHeaderValue (sanitizeHeaderValue (js "a%25252525252520b")) = js "a b"
  /\ sanitizeHeaderValue (sanitizeHeaderValue (js "a%25252525252520b"))
     <> sanitizeHeaderValue (js "a%25252525252520b").
Proof.
  repeat split; try reflexivity.
  vm_compute. discriminate.
Qed.

(** C3, amended: sanitizing an output again returns it exactly when the
    output holds no percent escape that still decodes (no [%XX] with [XX]
    below 0x80), that is, when a further decoding pass would leave it
    unchanged. *)
Theorem sanitize_idempotent_iff (x : jsstring) :
  sanitizeHeaderValue (sanitizeHeaderValue x) = sanitizeHeaderValue x
  <-> has_decodable (sanitizeHeaderValue x) = false.
Proof.
  rewrite <- decode_pass_fixed_iff. split.
  - intros Hidem.
    destruct (list_eq_dec N.eq_dec (decode_pass (sanitizeHeaderValue x))
                (sanitizeHeaderValue x)) as [Heq | Hneq]; auto.
    exfalso.
    pose proof (decode_loop_shorter 4 _ Hneq) as Hshort.
    pose proof (sanitize_length (sanitizeHeaderValue x)) as Hlen.
    rewrite Hidem in Hlen. lia.
  - intros Hfix.
    destruct (sanitize_normal x) as (Hc & Hl & Ht).
    apply sanitize_fixed; assumption.
Qed.

(** ** Escapes that do not decode *)

Section UndecodableEscapes.

Lemma high_bit (h1 h2 : N) :
  is_hex h1 = true -> is_hex h2 = true ->
  N.testbit (16 * hex_value h1 + hex_value h2) 7
  = (128 <=? 16 * hex_value h1 + hex_value h2).
Proof.
  intros H1 H2. hex_cases H1; hex_cases H2; reflexivity.
Qed.

(** A percent sign that is not the first character is never inside a
    match, so a pass treats the text before it on its own. *)
Lemma decode_pass_app_percent (l t : jsstring) :
  decode_pass (l ++ percent :: t) = decode_pass l ++ decode_pass (percent :: t).
Proof.
  induction l as [| c | c d | c h1 h2 rest IHrest IHtl] using escape_scan_ind.
  - reflexivity.
  - destruct t as [| t1 t']; [ reflexivity | ].
    change (decode_pass ([c] ++ percent :: t1 :: t'))
      with (if (c =? percent) && is_hex percent && is_hex t1
            then replacer percent t1 ++ decode_pass t'
            else c :: decode_pass (percent :: t1 :: t')).
    rewrite andb_false_r. reflexivity.
  - change (decode_pass ([c; d] ++ percent :: t))
      with (if (c =? percent) && is_hex d && is_hex percent
            then replacer d percent ++ decode_pass t
            else c :: decode_pass ([d] ++ percent :: t)).
    rewrite andb_false_r.
    destruct t as [| t1 t']; [ reflexivity | ].
    change (decode_pass ([d] ++ percent :: t1 :: t'))
      with (if (d =? percent) && is_hex percent && is_hex t1
            then replacer percent t1 ++ decode_pass t'
            else d :: decode_pass (percent :: t1 :: t')).
    rewrite andb_false_r. reflexivity.
  - change (decode_pass ((c :: h1 :: h2 :: rest) ++ percent :: t))
      with (if (c =? percent) && is_hex h1 && is_hex h2
            then replacer h1 h2 ++ decode_pass (rest ++ percent :: t)
            else c :: decode_pass ((h1 :: h2 :: rest) ++ percent :: t)).
    change (decode_pass (c :: h1 :: h2 :: rest))
      with (if (c =? percent) && is_hex h1 && is_hex h2
            then replacer h1 h2 ++ decode_pass rest
            else c :: decode_pass (h1 :: h2 :: rest)).
    destruct ((c =? percent) && is_hex h1 && is_hex h2).
    + rewrite IHrest, app_assoc. reflexivity.
    + rewrite IHtl. reflexivity.
Qed.

Variables h1 h2 : N.
Hypothesis hex1 : is_hex h1 = true.
Hypothesis hex2 : is_hex h2 = true.
Hypothesis high : 128 <= 16 * hex_value h1 + hex_value h2.

Lemma replacer_keeps : replacer h1 h2 = [percent; h1; h2].
Proof.
  unfold replacer, decodeURIComponent_escape.
  rewrite (high_bit h1 h2 hex1 hex2).
  destruct (N.leb_spec 128 (16 * hex_value h1 + hex_value h2)); [ reflexivity | lia ].
Qed.

Lemma decode_pass_holds (s : jsstring) :
  holds_escape h1 h2 s -> holds_escape h1 h2 (decode_pass s).
Proof.
  intros (l & r & ->). rewrite decode_pass_app_percent.
  change (decode_pass (percent :: h1 :: h2 :: r))
    with (if (percent =? percent) && is_hex h1 && is_hex h2
          then replacer h1 h2 ++ decode_pass r
          else percent :: decode_pass (h1 :: h2 :: r)).
  rewrite hex1, hex2, replacer_keeps. simpl.
  exists (decode_pass l), (decode_pass r). reflexivity.
Qed.

Lemma decode_loop_holds (budget : nat) (s : jsstring) :
  holds_escape h1 h2 s -> holds_escape h1 h2 (decode_loop budget s).
Proof.
  revert s. induction budget as [| b IH]; intros s H; simpl; auto.
  destruct (has_escape s); auto.
  destruct (JS.eqb (decode_pass s) s); auto using decode_pass_holds.
Qed.

Lemma replace_runs_app_keep (cls : N -> bool) (by_ : jsstring)
    (in_run : bool) (l : jsstring) (c : N) (r : jsstring) :
  cls c = false ->
  replace_runs cls by_ in_run (l ++ c :: r)
  = replace_runs cls by_ in_run l ++ c :: replace_runs cls by_ false r.
Proof.
  intros Hc. revert in_run.
  induction l as [| a l IH]; intros in_run; simpl.
  - rewrite Hc. reflexivity.
  - destruct (cls a).
    + destruct in_run; rewrite IH; [ | rewrite app_assoc ]; reflexivity.
    + rewrite IH. reflexivity.
Qed.

Lemma replace_runs_holds (cls : N -> bool) (by_ : jsstring) (s : jsstring) :
  cls percent = false -> (forall c, is_hex c = true -> cls c = false) ->
  holds_escape h1 h2 s -> holds_escape h1 h2 (replace_runs cls by_ false s).
Proof.
  intros Hp Hh (l & r & ->).
  rewrite replace_runs_app_keep by exact Hp.
  simpl. rewrite (Hh h1 hex1), (Hh h2 hex2).
  eexists _, _. reflexivity.
Qed.

Lemma replace_each_holds (s : jsstring) :
  holds_escape h1 h2 s -> holds_escape h1 h2 (replace_each outside_latin1 space s).
Proof.
  intros (l & r & ->). unfold replace_each.
  rewrite map_app. simpl.
  rewrite (is_hex_latin1 h1 hex1), (is_hex_latin1 h2 hex2).
  eexists _, _. reflexivity.
Qed.

Lemma drop_leading_app_keep (cls : N -> bool) (l : jsstring) (c : N)
    (r : jsstring) :
  cls c = false -> exists l', drop_leading cls (l ++ c :: r) = l' ++ c :: r.
Proof.
  intros Hc. induction l as [| a l IH]; simpl.
  - rewrite Hc. exists []. reflexivity.
  - destruct (cls a); auto. exists (a :: l). reflexivity.
Qed.

Lemma drop_trailing_cons_keep (cls : N -> bool) (c : N) (r : jsstring) :
  cls c = false -> drop_trailing cls (c :: r) = c :: drop_trailing cls r.
Proof.
  intros Hc. simpl. rewrite Hc. destruct (drop_trailing cls r); reflexivity.
Qed.

Lemma drop_trailing_app_keep (cls : N -> bool) (l : jsstring) (c : N)
    (r : jsstring) :
  cls c = false ->
  drop_trailing cls (l ++ c :: r) = l ++ c :: drop_trailing cls r.
Proof.
  intros Hc. induction l as [| a l IH].
  - apply drop_trailing_cons_keep. exact Hc.
  - simpl. rewrite IH. destruct l; reflexivity.
Qed.

Lemma trim_holds (s : jsstring) : holds_escape h1 h2 s -> holds_escape h1 h2 (trim s).
Proof.
  intros (l & r & ->). unfold trim.
  destruct (drop_leading_app_keep is_space l percent (h1 :: h2 :: r) eq_refl)
    as [l' ->].
  rewrite drop_trailing_app_keep by reflexivity.
  rewrite (drop_trailing_cons_keep is_space h1)
    by (apply is_hex_not_space; exact hex1).
  rewrite (drop_trailing_cons_keep is_space h2)
    by (apply is_hex_not_space; exact hex2).
  eexists _, _. reflexivity.
Qed.

Lemma sanitize_holds (s : jsstring) :
  holds_escape h1 h2 s -> holds_escape h1 h2 (sanitizeHeaderValue s).
Proof.
  intros H. rewrite sanitize_unfold.
  apply trim_holds.
  apply replace_runs_holds; [ reflexivity | apply is_hex_not_space | ].
  apply replace_each_holds.
  apply replace_runs_holds; [ reflexivity | apply is_hex_not_newline | ].
  apply decode_loop_holds. exact H.
Qed.

End UndecodableEscapes.

Example sanitize_utf8_escape :
  sanitizeHeaderValue (js "caf%C3%A9") = js "caf%C3%A9".
Proof. reflexivity. Qed.

(** C10: the replacer decodes an escape [%XX] exactly when [XX] is below
    0x80; an escape with [XX] at or above 0x80 is returned as it is, and is
    still there, verbatim, in the sanitizer's output. *)
Theorem escape_decoded_only_below_0x80 (h1 h2 : N) :
  is_hex h1 = true -> is_hex h2 = true ->
  let B := 16 * hex_value h1 + hex_value h2 in
  (B < 128 -> replacer h1 h2 = [B])
  /\ (128 <= B ->
      replacer h1 h2 = [percent; h1; h2]
      /\ forall l r, exists l' r',
           sanitizeHeaderValue (l ++ percent :: h1 :: h2 :: r)
           = l' ++ percent :: h1 :: h2 :: r').
Proof.
  intros H1 H2 B. split.
  - intros HB. unfold replacer, decodeURIComponent_escape.
    rewrite (high_bit h1 h2 H1 H2). fold B.
    destruct (N.leb_spec 128 B); [ lia | reflexivity ].
  - intros HB. split.
    + apply replacer_keeps; assumption.
    + intros l r.
      apply (sanitize_holds h1 h2 H1 H2 HB). exists l, r. reflexivity.
Qed.

Lemma escape_decoded_only_below_0x80_witness :
  replacer 67 51 = js "%C3"
  /\ exists l' r', sanitizeHeaderValue (js "caf" ++ percent :: 67 :: 51 :: js "%A9")
                   = l' ++ percent :: 67 :: 51 :: r'.
Proof.
  destruct (escape_decoded_only_below_0x80 67 51 eq_refl eq_refl) as [_ H].
  destruct H as [Hk Hs].
  - vm_compute. discriminate.
  - split; [ exact Hk | apply Hs ].
Defined.

(** ** The identifier generator *)

Section Identifier.

Lemma js_cons (a : ascii) (s : string) : js (String a s) = N_of_ascii a :: js s.
Proof. reflexivity. Qed.

Lemma js_injective (a b : string) : js a = js b -> a = b.
Proof.
  revert b. induction a as [| x a IH]; intros [| y b] H;
    try reflexivity; try discriminate.
  rewrite !js_cons in H. injection H as Hxy Hab.
  f_equal; auto.
  rewrite <- (ascii_N_embedding x), <- (ascii_N_embedding y), Hxy.
  reflexivity.
Qed.

Lemma number_to_string_injective (a b : Z) :
  number_to_string a = number_to_string b -> a = b.
Proof.
  unfold number_to_string. intros H. apply js_injective in H.
  apply DecimalZ.to_int_inj.
  assert (Hs : Some (Z.to_int a) = Some (Z.to_int b))
    by (rewrite <- !NilEmpty.isi, H; reflexivity).
  congruence.
Qed.

Lemma uint_digits (d : Decimal.uint) :
  List.forallb is_digit (js (NilEmpty.string_of_uint d)) = true.
Proof. induction d; simpl; auto. Qed.

Lemma number_to_string_chars (z : Z) :
  List.forallb is_identifier_char (number_to_string z) = true.
Proof.
  assert (Hd : forall s, List.forallb is_digit s = true ->
                         List.forallb is_identifier_char s = true).
  { intros s H. rewrite forallb_forall in *. intros c Hc.
    unfold is_identifier_char. rewrite (H c Hc).
    rewrite orb_true_r. reflexivity. }
  unfold number_to_string.
  destruct z as [| p | p]; simpl Z.to_int; simpl NilEmpty.string_of_int.
  - reflexivity.
  - apply Hd, uint_digits.
  - rewrite js_cons. simpl. apply Hd, uint_digits.
Qed.

(** The digits of a natural number. *)
Lemma number_to_string_digits (n : N) :
  List.forallb is_digit (number_to_string (Z.of_N n)) = true
  /\ number_to_string (Z.of_N n) <> [].
Proof.
  unfold number_to_string. destruct n as [| p]; simpl.
  - split; [ reflexivity | discriminate ].
  - split; [ apply uint_digits | ].
    pose proof (DecimalPos.Unsigned.to_uint_nonnil p) as Hnn.
    destruct (Pos.to_uint p); try contradiction; discriminate.
Qed.

Lemma replace_runs_chars (cls P : N -> bool) (by_ : jsstring)
    (in_run : bool) (s : jsstring) :
  (forall c, cls c = false -> P c = true) ->
  List.forallb P by_ = true ->
  List.forallb P (replace_runs cls by_ in_run s) = true.
Proof.
  intros Hc Hby. revert in_run.
  induction s as [| c s IH]; intros in_run; simpl; auto.
  destruct (cls c) eqn:E.
  - destruct in_run; auto. rewrite forallb_app, Hby. simpl. auto.
  - simpl. rewrite (Hc c E). simpl. auto.
Qed.

Lemma firstn_forallb (P : N -> bool) (n : nat) (s : jsstring) :
  List.forallb P s = true -> List.forallb P (List.firstn n s) = true.
Proof.
  revert s. induction n as [| n IH]; intros [| c s] H; simpl in *; auto.
  apply andb_true_iff in H. destruct H as [Hc Hs].
  rewrite Hc. simpl. auto.
Qed.

(** The characters of the cleaned title. *)
Lemma cleanTitle_chars (title : jsstring) :
  List.forallb is_identifier_char
    (List.firstn 50
       (drop_trailing is_hyphen
          (drop_leading is_hyphen
             (replace_runs not_lower_alnum [hyphen] false (toLowerCase title)))))
  = true.
Proof.
  apply firstn_forallb, drop_trailing_forallb, drop_leading_forallb.
  apply replace_runs_chars; [ | reflexivity ].
  intros c Hc. unfold not_lower_alnum in Hc. unfold is_identifier_char.
  apply negb_false_iff in Hc. rewrite Hc. reflexivity.
Qed.

(** *** The scan and the runs *)

Variable cls : N -> bool.




(** *** Stripping at the end, by reversal *)





End Identifier.



(** ** The object name *)

Section ObjectName.

Lemma split_dotless (s : jsstring) :
  List.forallb not_dot s = true -> split dot s = [s].
Proof.
  induction s as [| c s IH]; simpl; auto.
  intros H. apply andb_true_iff in H. destruct H as [Hc Hs].
  unfold not_dot in Hc. apply negb_true_iff in Hc.
  rewrite Hc, (IH Hs). reflexivity.
Qed.

Lemma split_nonempty (s : jsstring) : split dot s <> [].
Proof.
  destruct s as [| c s]; simpl; [ discriminate | ].
  destruct (c =? dot); [ discriminate | ].
  destruct (split dot s); discriminate.
Qed.

(** The segments behind a dot are those of the text behind it. *)
Lemma split_at_dot (base t : jsstring) :
  exists sg segs, split dot (base ++ dot :: t) = sg :: segs ++ split dot t.
Proof.
  induction base as [| c base (sg & segs & IH)]; simpl.
  - rewrite ?N.eqb_refl. exists [], []. reflexivity.
  - rewrite IH. destruct (c =? dot).
    + exists [], (sg :: segs). reflexivity.
    + exists (c :: sg), segs. reflexivity.
Qed.

Lemma last_behind (A : Type) (l l' : list A) (d : A) :
  l' <> [] -> List.last (l ++ l') d = List.last l' d.
Proof.
  intros Hne. induction l as [| a l IH]; simpl; auto.
  destruct (l ++ l') eqn:E; auto.
  apply app_eq_nil in E. destruct E. contradiction.
Qed.

Lemma ext_of_dotted (base e : jsstring) :
  e <> [] -> List.forallb not_dot e = true ->
  ext (base ++ dot :: e) = e.
Proof.
  intros Hne Hdl. unfold ext, pop.
  destruct (split_at_dot base e) as (sg & segs & ->).
  change (sg :: segs ++ split dot e) with ((sg :: segs) ++ split dot e).
  rewrite last_behind by apply split_nonempty.
  rewrite (split_dotless e Hdl). simpl.
  destruct e; [ contradiction | reflexivity ].
Qed.

Lemma strip_extension_dotted (l e : jsstring) :
  e <> [] -> List.forallb not_dot e = true ->
  strip_extension (l ++ dot :: e) = l.
Proof.
  intros Hne Hdl. induction l as [| c l IH]; simpl.
  - rewrite ?N.eqb_refl. rewrite Hdl.
    destruct e; [ contradiction | reflexivity ].
  - rewrite forallb_app. simpl.
    rewrite !andb_false_r. rewrite IH. reflexivity.
Qed.

Lemma replace_each_dotless (e : jsstring) :
  List.forallb not_dot e = true ->
  List.forallb not_dot (replace_each not_filename_char underscore e) = true.
Proof.
  induction e as [| c e IH]; simpl; auto.
  intros H. apply andb_true_iff in H. destruct H as [Hc Hs].
  rewrite (IH Hs), andb_true_r.
  destruct (not_filename_char c); [ reflexivity | exact Hc ].
Qed.

End ObjectName.

(** C7, as stated, fails.  The extension is appended as it is in the file
    name, so a character outside the allowed set that stands in the
    extension reaches the object name; and a name without a dot has no
    extension, yet the object name gets the whole name as one. *)
Lemma safeFilename_not_as_claimed :
  (safeFilename (js "mix.m p3") = js "mix.m p3"
   /\ List.existsb not_filename_char (safeFilename (js "mix.m p3")) = true)
  /\ (List.existsb (N.eqb dot) (js "song") = false
      /\ safeFilename (js "song") = js "song.song").
Proof. repeat split; reflexivity. Qed.

(** When nothing follows the last dot, and for the empty name, the
    extension is [mp3]. *)
Lemma safeFilename_fallback (base : jsstring) :
  safeFilename [] = js ".mp3"
  /\ safeFilename (base ++ [dot])
     = replace_each not_filename_char underscore base ++ js "..mp3".
Proof.
  split; [ reflexivity | ].
  unfold safeFilename, ext, pop.
  destruct (split_at_dot base []) as (sg & segs & ->).
  change (sg :: segs ++ split dot []) with ((sg :: segs) ++ split dot []).
  rewrite last_behind by discriminate. simpl last. simpl truthy. cbv iota.
  unfold replace_each. rewrite map_app. simpl map.
  change (if not_filename_char dot then underscore else dot) with dot.
  assert (Hs : forall l, strip_extension (l ++ [dot]) = l ++ [dot]).
  { induction l as [| c l IH]; simpl.
    - reflexivity.
    - rewrite IH, forallb_app. simpl. rewrite !andb_false_r. reflexivity. }
  rewrite Hs, <- app_assoc. reflexivity.
Qed.

(** C7, amended: for a file name that ends in a dot followed by a non-empty
    extension, the object name is the text before that dot with every
    character outside [[a-zA-Z0-9.-]] replaced by an underscore, then the
    dot and the extension unchanged, whatever its characters; when nothing
    follows the last dot, the sanitized name is followed by [.mp3]. *)
Theorem safeFilename_with_extension (base e : jsstring) :
  e <> [] ->
  List.forallb not_dot e = true ->
  safeFilename (base ++ [dot] ++ e)
  = replace_each not_filename_char underscore base ++ [dot] ++ e
  /\ safeFilename (base ++ [dot])
     = replace_each not_filename_char underscore (base ++ [dot]) ++ js ".mp3".
Proof.
  intros Hne Hdl. split.
  - change (base ++ [dot] ++ e) with (base ++ dot :: e).
    unfold safeFilename.
    rewrite (ext_of_dotted base e Hne Hdl).
    unfold replace_each at 1. rewrite map_app. simpl map.
    change (if not_filename_char dot then underscore else dot) with dot.
    rewrite strip_extension_dotted.
    + reflexivity.
    + destruct e; [ contradiction | discriminate ].
    + apply (replace_each_dotless e Hdl).
  - destruct (safeFilename_fallback base) as [_ ->].
    unfold replace_each. rewrite map_app, <- app_assoc. reflexivity.
Qed.

Lemma safeFilename_with_extension_witness :
  safeFilename (js "my talk (1)" ++ [dot] ++ js "m4a") = js "my_talk__1_.m4a".
Proof.
  destruct (safeFilename_with_extension (js "my talk (1)") (js "m4a"))
    as [H _].
  - discriminate.
  - reflexivity.
  - rewrite H. reflexivity.
Defined.

(** ** Substring search *)

Section Includes.

Lemma starts_with_self (p b : jsstring) : starts_with p (p ++ b) = true.
Proof. induction p as [| x p IH]; simpl; [ | rewrite N.eqb_refl ]; auto. Qed.

Lemma includes_middle (a p b : jsstring) : includes (a ++ p ++ b) p = true.
Proof.
  induction a as [| y a IH].
  - simpl app. destruct (p ++ b) eqn:E; simpl; rewrite <- E;
      rewrite starts_with_self; reflexivity.
  - simpl. rewrite IH. apply orb_true_r.
Qed.

Lemma includes_nil (p : jsstring) : p <> [] -> includes [] p = false.
Proof. destruct p; [ contradiction | reflexivity ]. Qed.

Lemma starts_with_app_sep (p a : jsstring) (c : N) (b : jsstring) :
  foreign p c = true -> p <> [] ->
  starts_with p (a ++ c :: b) = starts_with p a.
Proof.
  unfold foreign. revert p.
  induction a as [| y a IH]; intros [| x p] Hc Hne; try contradiction.
  - simpl in *. apply negb_true_iff, orb_false_iff in Hc.
    destruct Hc as [Hc _]. rewrite N.eqb_sym, Hc. reflexivity.
  - simpl in *. apply negb_true_iff, orb_false_iff in Hc.
    destruct Hc as [_ Hc].
    destruct p as [| x' p'].
    + destruct (a ++ c :: b), a; reflexivity.
    + rewrite IH; [ reflexivity | | discriminate ].
      apply negb_true_iff. exact Hc.
Qed.

(** An occurrence cannot extend over a character foreign to the pattern. *)
Lemma includes_app_sep (p a : jsstring) (c : N) (b : jsstring) :
  foreign p c = true -> p <> [] ->
  includes (a ++ c :: b) p = includes a p || includes b p.
Proof.
  intros Hc Hne. induction a as [| y a IH].
  - change ([] ++ c :: b) with (c :: b).
    change (includes (c :: b) p) with (starts_with p (c :: b) || includes b p).
    pose proof (starts_with_app_sep p [] c b Hc Hne) as Hs.
    change ([] ++ c :: b) with (c :: b) in Hs.
    rewrite Hs, (includes_nil p Hne).
    destruct p; [ contradiction | reflexivity ].
  - change (includes ((y :: a) ++ c :: b) p)
      with (starts_with p ((y :: a) ++ c :: b) || includes (a ++ c :: b) p).
    change (includes (y :: a) p) with (starts_with p (y :: a) || includes a p).
    rewrite (starts_with_app_sep p (y :: a) c b Hc Hne), IH.
    apply orb_assoc.
Qed.

Lemma includes_after_sep (p : jsstring) (c : N) (b : jsstring) :
  foreign p c = true -> p <> [] -> includes (c :: b) p = includes b p.
Proof.
  intros Hc Hne. pose proof (includes_app_sep p [] c b Hc Hne) as Hs.
  change ([] ++ c :: b) with (c :: b) in Hs.
  rewrite Hs, (includes_nil p Hne). reflexivity.
Qed.

(** Text made of characters foreign to the pattern adds no occurrence. *)
Lemma includes_app_foreign (p a t : jsstring) :
  List.forallb (foreign p) t = true -> p <> [] ->
  includes (a ++ t) p = includes a p.
Proof.
  intros Ht Hne. revert a.
  induction t as [| c t IH]; intros a.
  - rewrite app_nil_r. reflexivity.
  - simpl in Ht. apply andb_true_iff in Ht. destruct Ht as [Hc Ht].
    rewrite (includes_app_sep p a c t Hc Hne).
    pose proof (IH Ht []) as Hs. change ([] ++ t) with t in Hs.
    rewrite Hs, (includes_nil p Hne).
    apply orb_false_r.
Qed.

End Includes.

(** ** The transport's outcome *)

Lemma success_range (status : N) :
  (200 <=? status) && (status <? 300) = true <-> 200 <= status <= 299.
Proof.
  rewrite andb_true_iff, N.leb_le, N.ltb_lt. lia.
Qed.

Lemma failure_message_embeds (status : N) (body : jsstring) :
  includes (upload_failure_message status body)
    (number_to_string (Z.of_N status)) = true
  /\ includes (upload_failure_message status body) body = true.
Proof.
  unfold upload_failure_message. split.
  - apply includes_middle.
  - rewrite (app_assoc (js "Upload failed with status ")),
      (app_assoc _ (js ": ")).
    pose proof (includes_middle
                  ((js "Upload failed with status "
                      ++ number_to_string (Z.of_N status)) ++ js ": ")
                  body []) as H.
    rewrite app_nil_r in H. exact H.
Qed.

(** C5: the transport resolves, with the public URL of the identifier,
    exactly when the request loads with a status from 200 to 299; with any
    other status it rejects with a message that contains the status in
    decimal and the response text as it is; on a network error it rejects
    (nothing of a response is known then). *)
Theorem upload_outcome (timestamp : Z) (file : File)
    (metadata : ArchiveMetadata) (keys : ArchiveKeys) (outcome : xhr_outcome) :
  let identifier := generateIdentifier timestamp (title metadata) in
  let result := snd (uploadToInternetArchive timestamp file metadata keys outcome) in
  ((exists url, result = Resolved url)
   <-> exists status body, outcome = Load status body /\ 200 <= status <= 299)
  /\ (forall url, result = Resolved url ->
        url = js "https://archive.org/details/" ++ identifier)
  /\ (forall status body,
        outcome = Load status body -> ~ 200 <= status <= 299 ->
        exists message,
          result = Rejected (Error message)
          /\ includes message (number_to_string (Z.of_N status)) = true
          /\ includes message body = true)
  /\ (outcome = NetworkError -> exists message, result = Rejected (Error message)).
Proof.
  intros identifier result. subst result. unfold uploadToInternetArchive.
  cbn [snd]. fold identifier.
  destruct outcome as [status body | ]; unfold upload_settle.
  - pose proof (success_range status) as Hrange.
    destruct ((200 <=? status) && (status <? 300)).
    + assert (Hin : 200 <= status <= 299) by (apply Hrange; reflexivity).
      split; [ | split; [ | split ] ].
      * split; intros _; eauto.
      * intros url H. injection H as <-. reflexivity.
      * intros st b Heq Hout. injection Heq as <- <-. contradiction.
      * discriminate.
    + assert (Hout : ~ 200 <= status <= 299)
        by (intros H; apply Hrange in H; discriminate).
      split; [ | split; [ | split ] ].
      * split.
        -- intros [url H]. discriminate.
        -- intros (st & b & Heq & Hin). injection Heq as <- <-. contradiction.
      * intros url H. discriminate.
      * intros st b Heq _. injection Heq as <- <-.
        exists (upload_failure_message status body).
        split; [ reflexivity | apply failure_message_embeds ].
      * discriminate.
  - split; [ | split; [ | split ] ].
    + split.
      * intros [url H]. discriminate.
      * intros (st & b & Heq & _). discriminate.
    + intros url H. discriminate.
    + intros st b Heq. discriminate.
    + intros _. eexists. reflexivity.
Qed.

Lemma upload_outcome_witness :
  snd (uploadToInternetArchive 1700000000000
         {| name := js "talk.mp3"; size := 10 |}
         {| title := js "My Talk"; description := []; tags := []; creator := [] |}
         {| accessKey := js "A"; secretKey := js "S" |}
         (Load 201 []))
  = Resolved (js "https://archive.org/details/notebooklm-archive-my-talk-1700000000000")
  /\ exists message,
       snd (uploadToInternetArchive 1700000000000
              {| name := js "talk.mp3"; size := 10 |}
              {| title := js "My Talk"; description := []; tags := []; creator := [] |}
              {| accessKey := js "A"; secretKey := js "S" |}
              (Load 503 (js "Slow Down")))
       = Rejected (Error message)
       /\ includes message (number_to_string 503) = true
       /\ includes message (js "Slow Down") = true.
Proof.
  split.
  - reflexivity.
  - destruct (upload_outcome 1700000000000
                {| name := js "talk.mp3"; size := 10 |}
                {| title := js "My Talk"; description := []; tags := []; creator := [] |}
                {| accessKey := js "A"; secretKey := js "S" |}
                (Load 503 (js "Slow Down"))) as (_ & _ & Hfail & _).
    apply (Hfail 503 (js "Slow Down")).
    + reflexivity.
    + lia.
Defined.

(** ** Classification of a failure *)

Section AuthError.

Lemma digit_foreign (p : jsstring) (c : N) :
  List.forallb (fun x => negb (is_digit x)) p = true ->
  is_digit c = true -> foreign p c = true.
Proof.
  intros Hp Hc. unfold foreign. apply negb_true_iff.
  destruct (List.existsb (N.eqb c) p) eqn:E; auto.
  apply existsb_exists in E. destruct E as (x & Hin & Heq).
  apply N.eqb_eq in Heq. subst x.
  rewrite forallb_forall in Hp. specialize (Hp c Hin).
  rewrite Hc in Hp. discriminate.
Qed.

(** Where a pattern without colon and blank can occur in the message. *)
Lemma message_includes (p : jsstring) (status : N) (body : jsstring) :
  p <> [] -> foreign p 58 = true -> foreign p 32 = true ->
  includes (js "Upload failed with status") p = false ->
  includes (upload_failure_message status body) p
  = includes (number_to_string (Z.of_N status)) p || includes body p.
Proof.
  intros Hne Hcolon Hblank Hprefix.
  unfold upload_failure_message.
  change (js "Upload failed with status ")
    with (js "Upload failed with status" ++ [32]).
  change (js ": ") with [58; 32].
  replace ((js "Upload failed with status" ++ [32])
             ++ number_to_string (Z.of_N status) ++ [58; 32] ++ body)
    with ((js "Upload failed with status"
             ++ 32 :: number_to_string (Z.of_N status)) ++ 58 :: 32 :: body)
    by (rewrite <- !app_assoc; reflexivity).
  rewrite (includes_app_sep p _ 58 _ Hcolon Hne).
  rewrite (includes_app_sep p _ 32 _ Hblank Hne).
  rewrite (includes_after_sep p 32 body Hblank Hne).
  rewrite Hprefix. reflexivity.
Qed.

Lemma digits_exclude (p : jsstring) (status : N) :
  p <> [] -> List.forallb (fun x => negb (is_digit x)) p = true ->
  includes (number_to_string (Z.of_N status)) p = false.
Proof.
  intros Hne Hp.
  destruct (number_to_string_digits status) as [Hd _].
  pose proof (includes_app_foreign p [] (number_to_string (Z.of_N status))) as H.
  change ([] ++ number_to_string (Z.of_N status))
    with (number_to_string (Z.of_N status)) in H.
  rewrite H; [ apply includes_nil; exact Hne | | exact Hne ].
  rewrite forallb_forall in *. intros c Hc.
  apply digit_foreign; [ apply forallb_forall; exact Hp | auto ].
Qed.

(** Among the numbers of up to three digits only 403 contains "403". *)
Lemma three_digit_403 (status : N) :
  status < 1000 ->
  includes (number_to_string (Z.of_N status)) marker_403 = (status =? 403).
Proof.
  intros Hlt.
  assert (Hall : List.forallb
                   (fun n => Bool.eqb
                               (includes (number_to_string (Z.of_N n)) marker_403)
                               (n =? 403))
                   (List.map N.of_nat (List.seq 0 1000)) = true)
    by (vm_compute; reflexivity).
  rewrite forallb_forall in Hall.
  apply eqb_prop, Hall.
  rewrite <- (N2Nat.id status). apply in_map, in_seq. lia.
Qed.

Lemma isAuthError_message (status : N) (body : jsstring) :
  isAuthError (Some (upload_failure_message status body))
  = includes (number_to_string (Z.of_N status)) marker_403
    || includes body marker_403
    || includes body marker_access_key
    || includes body marker_signature.
Proof.
  unfold isAuthError.
  change (negb (truthy (upload_failure_message status body))) with false.
  cbv iota.
  fold marker_403 marker_access_key marker_signature.
  rewrite (message_includes marker_403), (message_includes marker_access_key),
    (message_includes marker_signature);
    try reflexivity; try discriminate.
  rewrite (digits_exclude marker_access_key), (digits_exclude marker_signature);
    try reflexivity; try discriminate.
Qed.

Lemma handleUpload_resume_failure (s : State) (id : jsstring) (status : N)
    (body : jsstring) :
  pending_upload s = Some id ->
  (200 <=? status) && (status <? 300) = false ->
  errorMsg (handleUpload_resume (Load status body) s)
  = Some (upload_failure_message status body).
Proof.
  intros Hp Hr. unfold handleUpload_resume, upload_settle.
  rewrite Hp, Hr. reflexivity.
Qed.

End AuthError.

(** C8, as stated, fails in the direction from the classification to the
    cause: the test looks for the text 403 in the whole message, so a
    failure with another status whose body happens to hold these digits is
    classified as a credential failure. *)
Lemma isAuthError_without_auth_cause :
  isAuthError (Some (upload_failure_message 500 (js "request 14032 failed"))) = true
  /\ 500 <> 403
  /\ includes (js "request 14032 failed") (js "InvalidAccessKeyId") = false
  /\ includes (js "request 14032 failed") (js "SignatureDoesNotMatch") = false.
Proof. repeat split; try reflexivity. discriminate. Qed.

(** C8, amended: a failed upload (a status of at most three digits outside
    200 to 299) is classified as a credential failure exactly when the
    status is 403, or the body holds one of the two markers, or the body
    holds the text 403; the classification depends on status and body only,
    whatever the rest of the orchestrator's state. *)
Theorem auth_failure_classification (s : State) (id : jsstring) (status : N)
    (body : jsstring) :
  pending_upload s = Some id ->
  status < 1000 ->
  (200 <=? status) && (status <? 300) = false ->
  isAuthError (errorMsg (handleUpload_resume (Load status body) s)) = true
  <-> status = 403
      \/ includes body (js "InvalidAccessKeyId") = true
      \/ includes body (js "SignatureDoesNotMatch") = true
      \/ includes body (js "403") = true.
Proof.
  intros Hp Hlt Hr.
  rewrite (handleUpload_resume_failure s id status body Hp Hr).
  rewrite isAuthError_message, (three_digit_403 status Hlt).
  fold marker_403 marker_access_key marker_signature.
  rewrite !orb_true_iff, N.eqb_eq. tauto.
Qed.

Lemma auth_failure_classification_witness :
  isAuthError
    (errorMsg
       (handleUpload_resume (Load 403 (js "<Code>InvalidAccessKeyId</Code>"))
          (set_pending_upload (Some (js "notebooklm-archive-x-1")) initial)))
  = true.
Proof.
  apply (auth_failure_classification
           (set_pending_upload (Some (js "notebooklm-archive-x-1")) initial)
           (js "notebooklm-archive-x-1") 403 (js "<Code>InvalidAccessKeyId</Code>")).
  - reflexivity.
  - reflexivity.
  - reflexivity.
  - left. reflexivity.
Defined.

(** ** The credential verifier *)

(** When the Authorization header is accepted, the promise resolves: to
    [true] for a load with status 200, to [false] otherwise. *)
Lemma verifyCredentials_resolves (keys : ArchiveKeys) (outcome : xhr_outcome) :
  setRequestHeader (authorization keys) = None ->
  verifyCredentials keys outcome
  = Resolved match outcome with
             | Load status _ => status =? 200
             | NetworkError => false
             end.
Proof.
  intros H. unfold verifyCredentials. rewrite H.
  destruct outcome as [status body | ]; [ | reflexivity ].
  destruct (status =? 200); reflexivity.
Qed.

(** C9 fails on the code: [setRequestHeader] throws on a key with a code
    unit above 0xFF, inside the promise executor and outside any [try], so
    the promise is rejected, whatever the server would have answered.  The
    upload transport catches the same exception and goes on. *)
Theorem verifyCredentials_rejects :
  (forall outcome, verifyCredentials cyrillic_keys outcome = Rejected TypeError)
  /\ (forall timestamp file metadata,
        snd (uploadToInternetArchive timestamp file metadata cyrillic_keys
               (Load 200 []))
        = Resolved (details_url (generateIdentifier timestamp (title metadata)))).
Proof.
  split.
  - intros outcome. reflexivity.
  - intros timestamp file metadata. reflexivity.
Qed.

(** ** One status check of the poller *)

Lemma check_succeeds_iff (requested : jsstring) (r : fetch_result) :
  check_succeeds requested r = true <-> artifact_ready requested r.
Proof.
  unfold artifact_ready. split.
  - destruct r as [| ok body]; simpl; try discriminate.
    destruct ok; try discriminate.
    destruct body as [| | data]; try discriminate.
    destruct (doc_metadata data) as [m |] eqn:Em; try discriminate.
    destruct (identifier m) as [i |] eqn:Ei; try discriminate.
    destruct (JS.eqb i requested) eqn:Eq; try discriminate.
    apply eqb_eq in Eq. subst i.
    unfold hasWaveform.
    destruct (doc_files data) as [files |] eqn:Ef; try discriminate.
    intros H. apply existsb_exists in H. destruct H as (f & Hin & Hf).
    destruct (format f) as [fmt |] eqn:Efmt; try discriminate.
    apply eqb_eq in Hf. subst fmt.
    exists data, m, files, f. auto 10.
  - intros (data & m & files & f & -> & Hm & Hi & Hfs & Hin & Hf).
    simpl. rewrite Hm, Hi, eqb_refl. unfold hasWaveform. rewrite Hfs.
    apply existsb_exists. exists f. split; auto.
    rewrite Hf. apply eqb_refl.
Qed.



(** ** Cancelling the verification *)

Lemma AppStep_eqb_refl (a : AppStep) : AppStep_eqb a a = true.
Proof. destruct a; reflexivity. Qed.

Lemma option_eqb_refl (a : option jsstring) : option_eqb a a = true.
Proof. destruct a; simpl; auto using eqb_refl. Qed.

(** The effect is left alone when its dependencies are unchanged. *)
Lemma run_effect_same (before after : State) :
  step after = step before -> successUrl after = successUrl before ->
  run_effect before after = after.
Proof.
  intros Hs Hu. unfold run_effect.
  rewrite Hs, Hu, AppStep_eqb_refl, option_eqb_refl. reflexivity.
Qed.

(** The completion of the poller ends the session: no tick changes the
    state afterwards. *)
Lemma completion_stops_ticks (s : State) (r : fetch_result) :
  artifact_ready (poll_identifier s) r ->
  let s' := dispatch s (PollAnswer r) in
  timerInterval s' = false /\ pollInterval s' = false
  /\ dispatch s' TimerTick = s' /\ dispatch s' PollTick = s'.
Proof.
  intros H s'.
  assert (Hs' : s' = set_intervals false false (set_isVerifying false s)).
  { subst s'. unfold dispatch, handle, checkStatus.
    apply check_succeeds_iff in H. rewrite H.
    apply run_effect_same; reflexivity. }
  rewrite Hs'. unfold dispatch, handle, timer_tick, poll_tick.
  cbn [timerInterval pollInterval set_intervals].
  repeat split; apply run_effect_same; reflexivity.
Qed.

(** The skip button's handler changes the flag only; when the timer is set,
    the next tick still counts. *)
Lemma skip_then_tick (s : State) :
  skip_rendered s = true -> timerInterval s = true ->
  let s' := dispatch s ClickSkip in
  isVerifying s' = false
  /\ elapsedTime (dispatch s' TimerTick) = elapsedTime s' + 1.
Proof.
  intros Hr Ht s'.
  assert (Hs' : s' = set_isVerifying false s).
  { subst s'. unfold dispatch, handle. rewrite Hr.
    apply run_effect_same; reflexivity. }
  rewrite Hs'. split; [ reflexivity | ].
  unfold dispatch, handle, timer_tick.
  cbn [timerInterval set_isVerifying]. rewrite Ht.
  rewrite run_effect_same; reflexivity.
Qed.

(** C1 fails on the code.  In the session below the skip button is pressed
    after twenty-one seconds: verification is shown as ended, yet both
    intervals stay set, the next timer tick counts the twenty-second second
    and the next poll tick sends another request. *)
Theorem skip_does_not_stop_the_session :
  let s := dispatch waiting_session ClickSkip in
  skip_rendered waiting_session = true
  /\ isVerifying s = false
  /\ timerInterval s = true /\ pollInterval s = true
  /\ elapsedTime s = 21 /\ elapsedTime (dispatch s TimerTick) = 22
  /\ List.length (poll_requests s) = 1%nat
  /\ List.length (poll_requests (dispatch s PollTick)) = 2%nat
  /\ observable (dispatch s TimerTick) <> observable s
  /\ observable (dispatch s PollTick) <> observable s.
Proof.
  vm_compute. repeat split; discriminate.
Qed.

(** ** Reset *)

(** C2, as stated, fails: the reset does not touch the metadata. *)
Lemma reset_keeps_metadata :
  let s := dispatch (run initial demo_trace) ClickReset in
  step s = UPLOAD
  /\ title (metadata s) = js "My Talk"
  /\ metadata s <> metadata initial.
Proof.
  vm_compute. repeat split. discriminate.
Qed.

(** C2, amended: from every state the reset action leads to the first step
    with no file, an empty context text, progress 0, no success URL, no
    error message, verification off and elapsed time 0; the metadata is what
    it was before. *)
Theorem reset_returns_to_upload_step (s : State) :
  let s' := run_effect s (handleReset s) in
  step s' = UPLOAD
  /\ file s' = None
  /\ userContext s' = []
  /\ uploadProgress s' = 0%Q
  /\ successUrl s' = None
  /\ errorMsg s' = None
  /\ isVerifying s' = false
  /\ elapsedTime s' = 0
  /\ metadata s' = metadata s.
Proof.
  unfold run_effect.
  destruct (AppStep_eqb (step s) (step (handleReset s))
            && option_eqb (successUrl s) (successUrl (handleReset s)));
    cbn; repeat split.
Qed.

(** Leaving the success step by the reset clears both intervals. *)
Lemma reset_stops_ticks (s : State) :
  success_rendered s = true ->
  let s' := dispatch s ClickReset in
  timerInterval s' = false /\ pollInterval s' = false
  /\ dispatch s' TimerTick = s' /\ dispatch s' PollTick = s'.
Proof.
  intros Hs s'.
  assert (Hi : timerInterval s' = false /\ pollInterval s' = false).
  { subst s'. unfold dispatch, handle, run_effect. rewrite Hs.
    unfold success_rendered in Hs. apply andb_true_iff in Hs.
    destruct Hs as [Hs _]. destruct (step s); try discriminate. cbn. auto. }
  destruct Hi as [Ht Hp].
  repeat split; auto; unfold dispatch, handle, timer_tick, poll_tick.
  - rewrite Ht. apply run_effect_same; reflexivity.
  - rewrite Hp. apply run_effect_same; reflexivity.
Qed.

(** * Further properties of the code *)

(** ** The sanitizer's output *)

(** X1: whatever the input, the sanitized value holds neither CR nor LF,
    only code units up to 0xFF, no white space but single blanks between
    other characters, none at its ends, and it is never longer than the
    input. *)
Theorem sanitize_output_shape (x : jsstring) :
  List.forallb (fun c => negb (is_newline c)) (sanitizeHeaderValue x) = true
  /\ List.forallb is_latin1 (sanitizeHeaderValue x) = true
  /\ collapsed is_space space false (sanitizeHeaderValue x) = true
  /\ trim (sanitizeHeaderValue x) = sanitizeHeaderValue x
  /\ (List.length (sanitizeHeaderValue x) <= List.length x)%nat.
Proof.
  destruct (sanitize_normal x) as (Hc & Hl & Ht).
  repeat split; auto.
  - apply collapsed_no_newline. exact Hc.
  - eapply Nat.le_trans; [ apply sanitize_length | apply decode_loop_length ].
Qed.

Lemma existsb_drop_leading (p cls : N -> bool) (s : jsstring) :
  (forall c, p c = true -> cls c = false) ->
  List.existsb p (drop_leading cls s) = List.existsb p s.
Proof.
  intros H. induction s as [| c s IH]; simpl; auto.
  destruct (cls c) eqn:E; auto.
  rewrite IH. destruct (p c) eqn:Ep; auto.
  rewrite (H c Ep) in E. discriminate.
Qed.

Lemma existsb_drop_trailing (p cls : N -> bool) (s : jsstring) :
  (forall c, p c = true -> cls c = false) ->
  List.existsb p (drop_trailing cls s) = List.existsb p s.
Proof.
  intros H. induction s as [| c s IH]; simpl; auto.
  rewrite <- IH.
  destruct (drop_trailing cls s) as [| d t].
  - destruct (cls c) eqn:E; simpl.
    + destruct (p c) eqn:Ep; auto. rewrite (H c Ep) in E. discriminate.
    + reflexivity.
  - reflexivity.
Qed.

Lemma existsb_ext_on (p q : N -> bool) (s : jsstring) :
  (forall c, In c s -> p c = q c) -> List.existsb p s = List.existsb q s.
Proof.
  induction s as [| c s IH]; simpl; auto.
  intros H. rewrite (H c (or_introl eq_refl)), IH; auto.
Qed.

Lemma setRequestHeader_sanitized (x : jsstring) :
  setRequestHeader (sanitizeHeaderValue x)
  = if List.existsb (N.eqb 0) (sanitizeHeaderValue x)
    then Some SyntaxError else None.
Proof.
  destruct (sanitize_normal x) as (Hcol & Hl & _).
  pose proof (collapsed_no_newline _ Hcol) as Hn.
  unfold setRequestHeader.
  assert (Hlat : List.existsb outside_latin1 (sanitizeHeaderValue x) = false).
  { destruct (List.existsb outside_latin1 (sanitizeHeaderValue x)) eqn:E; auto.
    apply existsb_exists in E. destruct E as (c & Hin & Hc).
    rewrite forallb_forall in Hl. specialize (Hl c Hin).
    unfold is_latin1 in Hl. rewrite Hc in Hl. discriminate. }
  rewrite Hlat.
  assert (Hsame : List.existsb (fun c => (c =? 0) || (c =? 10) || (c =? 13))
                    (drop_trailing is_http_whitespace
                       (drop_leading is_http_whitespace (sanitizeHeaderValue x)))
                  = List.existsb (N.eqb 0) (sanitizeHeaderValue x)).
  { assert (Hkeep : forall c, (c =? 0) = true -> is_http_whitespace c = false)
      by (intros c Hc; apply N.eqb_eq in Hc; subst c; reflexivity).
    transitivity (List.existsb (fun c => c =? 0) (sanitizeHeaderValue x));
      [ | apply existsb_ext_on; intros c _; apply N.eqb_sym ].
    rewrite <- (existsb_drop_leading (fun c => c =? 0) is_http_whitespace _ Hkeep).
    rewrite <- (existsb_drop_trailing (fun c => c =? 0) is_http_whitespace _ Hkeep).
    apply existsb_ext_on. intros c Hin.
    assert (Hc : is_newline c = false).
    { pose proof (drop_trailing_forallb is_http_whitespace
                    (fun c => negb (is_newline c)) _
                    (drop_leading_forallb is_http_whitespace
                       (fun c => negb (is_newline c)) _ Hn)) as Hall.
      rewrite forallb_forall in Hall. specialize (Hall c Hin).
      apply negb_true_iff in Hall. exact Hall. }
    unfold is_newline in Hc. apply orb_false_iff in Hc. destruct Hc as [H13 H10].
    rewrite H13, H10, !orb_false_r. reflexivity. }
  rewrite Hsame. reflexivity.
Qed.

(** X2: [setRequestHeader] never refuses a sanitized value for a character
    above 0xFF or a line break; it refuses it exactly when the value holds
    the character NUL (which the decoding of [%00] produces). *)
Theorem sanitized_header_accepted (x : jsstring) :
  setRequestHeader (sanitizeHeaderValue x)
  = if List.existsb (N.eqb 0) (sanitizeHeaderValue x)
    then Some SyntaxError else None.
Proof. apply setRequestHeader_sanitized. Qed.

(** X3: the strings the sanitizer returns unchanged are exactly those of
    that shape in which no escape decodes. *)
Theorem sanitize_fixed_points (x : jsstring) :
  sanitizeHeaderValue x = x
  <-> collapsed is_space space false x = true
      /\ List.forallb is_latin1 x = true
      /\ trim x = x
      /\ has_decodable x = false.
Proof.
  split.
  - intros Hx. destruct (sanitize_normal x) as (Hc & Hl & Ht).
    rewrite Hx in Hc, Hl, Ht. repeat split; auto.
    apply decode_pass_fixed_iff.
    destruct (list_eq_dec N.eq_dec (decode_pass x) x) as [Heq | Hneq]; auto.
    exfalso.
    pose proof (decode_loop_shorter 4 x Hneq) as Hshort.
    pose proof (sanitize_length x) as Hlen.
    rewrite Hx in Hlen. lia.
  - intros (Hc & Hl & Ht & Hd).
    apply sanitize_fixed; auto.
    apply decode_pass_fixed_iff. exact Hd.
Qed.

(** X4: whenever the decoding loop ends with a string in which no escape
    decodes any more (it stopped before using up its five passes, or the
    fifth pass resolved the last layer), sanitizing the output again returns
    it unchanged. *)
Theorem sanitize_idempotent_within_five_passes (x : jsstring) :
  has_decodable (decode_loop 5 x) = false ->
  sanitizeHeaderValue (sanitizeHeaderValue x) = sanitizeHeaderValue x.
Proof.
  intros H. apply sanitize_idempotent_resolved.
  apply decode_pass_fixed_iff. exact H.
Qed.

Lemma sanitize_idempotent_within_five_passes_witness :
  sanitizeHeaderValue (sanitizeHeaderValue (js "a%2525252520b"))
  = sanitizeHeaderValue (js "a%2525252520b").
Proof.
  apply (sanitize_idempotent_within_five_passes (js "a%2525252520b")).
  reflexivity.
Defined.

(** ** The identifier *)

Section Collapsed.

Variable cls : N -> bool.
Variable sep : N.

Lemma collapsed_app (prev : bool) (a b : jsstring) :
  collapsed cls sep prev (a ++ b) = true ->
  collapsed cls sep prev a = true /\ collapsed cls sep false b = true.
Proof.
  revert prev. induction a as [| c a IH]; intros prev H; simpl in *.
  - split; [ reflexivity | eapply collapsed_weaken; eauto ].
  - destruct (cls c).
    + apply andb_true_iff in H. destruct H as [H Hs].
      destruct (IH true Hs) as [Ha Hb]. rewrite H, Ha. auto.
    + apply IH. exact H.
Qed.

Lemma drop_leading_suffix (cls2 : N -> bool) (s : jsstring) :
  exists a, s = a ++ drop_leading cls2 s.
Proof.
  induction s as [| c s [a IH]]; simpl.
  - exists []. reflexivity.
  - destruct (cls2 c).
    + exists (c :: a). simpl. f_equal. exact IH.
    + exists []. reflexivity.
Qed.

Lemma drop_trailing_prefix (cls2 : N -> bool) (s : jsstring) :
  exists b, s = drop_trailing cls2 s ++ b.
Proof.
  induction s as [| c s [b IH]]; simpl.
  - exists []. reflexivity.
  - destruct (drop_trailing cls2 s) as [| d t].
    + destruct (cls2 c).
      * exists (c :: s). reflexivity.
      * exists s. reflexivity.
    + exists b. simpl. f_equal. exact IH.
Qed.

Lemma collapsed_ext (cls2 : N -> bool) (prev : bool) (s : jsstring) :
  (forall c, In c s -> cls c = cls2 c) ->
  collapsed cls sep prev s = collapsed cls2 sep prev s.
Proof.
  revert prev. induction s as [| c s IH]; intros prev H; simpl; auto.
  rewrite <- (H c (or_introl eq_refl)).
  destruct (cls c); rewrite IH; auto; intros d Hd; apply H; right; exact Hd.
Qed.

End Collapsed.

Lemma identifier_char_classes (c : N) :
  is_identifier_char c = true -> not_lower_alnum c = is_hyphen c.
Proof.
  unfold is_identifier_char, not_lower_alnum, is_hyphen, is_lower, is_digit, hyphen.
  cmp_cases.
Qed.

(** X5: the title's part of the identifier has at most 50 characters, all
    of them in [[a-z0-9-]], does not begin with a hyphen and never holds two
    hyphens in a row; the identifier is the prefix, that part, a hyphen and
    the decimal time. *)
Theorem identifier_slug_shape (t : Z) (title : jsstring) :
  generateIdentifier t title
  = namespace_prefix ++ identifier_slug title ++ [hyphen] ++ number_to_string t
  /\ (List.length (identifier_slug title) <= 50)%nat
  /\ List.forallb is_identifier_char (identifier_slug title) = true
  /\ starts_trimmed is_hyphen (identifier_slug title) = true
  /\ collapsed is_hyphen hyphen false (identifier_slug title) = true.
Proof.
  split; [ reflexivity | ].
  split; [ apply firstn_le_length | ].
  pose proof (cleanTitle_chars title) as Hchars. fold (identifier_slug title) in Hchars.
  split; [ exact Hchars | ].
  unfold identifier_slug in *.
  set (scanned := replace_runs not_lower_alnum [hyphen] false (toLowerCase title)) in *.
  split.
  - pose proof (drop_trailing_starts_trimmed is_hyphen _
                  (drop_leading_trimmed is_hyphen scanned)) as H.
    destruct (drop_trailing is_hyphen (drop_leading is_hyphen scanned)); auto.
  - rewrite <- (collapsed_ext not_lower_alnum hyphen is_hyphen)
      by (intros c Hc; apply identifier_char_classes;
          rewrite forallb_forall in Hchars; auto).
    assert (Hs : collapsed not_lower_alnum hyphen false scanned = true)
      by (apply replace_runs_collapsed; reflexivity).
    destruct (drop_leading_suffix is_hyphen scanned) as [a Ha].
    rewrite Ha in Hs. apply collapsed_app in Hs. destruct Hs as [_ Hs].
    destruct (drop_trailing_prefix is_hyphen (drop_leading is_hyphen scanned))
      as [b Hb].
    rewrite Hb in Hs. apply collapsed_app in Hs. destruct Hs as [Hs _].
    rewrite <- (firstn_skipn 50 (drop_trailing is_hyphen (drop_leading is_hyphen scanned)))
      in Hs.
    apply collapsed_app in Hs. destruct Hs as [Hs _]. exact Hs.
Qed.

Lemma toLowerCase_lower_alnum (s : jsstring) :
  List.forallb is_lower_alnum s = true -> toLowerCase s = s.
Proof.
  induction s as [| c s IH]; [ reflexivity | ].
  simpl. intros H. apply andb_true_iff in H. destruct H as [Hc Hs].
  unfold toLowerCase in *. simpl. rewrite (IH Hs).
  assert (Hu : toLowerCase_unit c = [c]).
  { unfold toLowerCase_unit, is_upper.
    unfold is_lower_alnum, is_lower, is_digit in Hc. revert Hc. cmp_cases. }
  rewrite Hu. reflexivity.
Qed.

Lemma drop_leading_none (cls : N -> bool) (s : jsstring) :
  List.forallb (fun c => negb (cls c)) s = true -> drop_leading cls s = s.
Proof.
  destruct s as [| c s]; simpl; auto.
  destruct (cls c); [ discriminate | reflexivity ].
Qed.

Lemma drop_trailing_none (cls : N -> bool) (s : jsstring) :
  List.forallb (fun c => negb (cls c)) s = true -> drop_trailing cls s = s.
Proof.
  induction s as [| c s IH]; simpl; auto.
  intros H. apply andb_true_iff in H. destruct H as [Hc Hs].
  rewrite (IH Hs). destruct (cls c); [ discriminate | ].
  destruct s; reflexivity.
Qed.

(** X6: a title of at most 50 characters, all of them lowercase letters or
    digits, stands in the identifier as it is. *)
Theorem identifier_of_plain_title (t : Z) (title : jsstring) :
  List.forallb is_lower_alnum title = true ->
  (List.length title <= 50)%nat ->
  generateIdentifier t title
  = namespace_prefix ++ title ++ [hyphen] ++ number_to_string t.
Proof.
  intros Hplain Hlen. unfold generateIdentifier.
  rewrite (toLowerCase_lower_alnum title Hplain).
  assert (Hin : List.forallb (fun c => negb (not_lower_alnum c)) title = true).
  { rewrite forallb_forall in *. intros c Hc.
    unfold not_lower_alnum. rewrite negb_involutive. apply (Hplain c Hc). }
  assert (Hnh : List.forallb (fun c => negb (is_hyphen c)) title = true).
  { rewrite forallb_forall in *. intros c Hc. specialize (Hplain c Hc).
    unfold is_lower_alnum, is_lower, is_digit in Hplain.
    unfold is_hyphen, hyphen. revert Hplain. cmp_cases. }
  rewrite (replace_runs_none not_lower_alnum _ _ _ Hin).
  rewrite (drop_leading_none is_hyphen _ Hnh), (drop_trailing_none is_hyphen _ Hnh).
  rewrite firstn_all2 by exact Hlen. reflexivity.
Qed.

Lemma identifier_of_plain_title_witness :
  generateIdentifier 1700000000000 (js "episode42")
  = js "notebooklm-archive-episode42-1700000000000".
Proof.
  rewrite (identifier_of_plain_title 1700000000000 (js "episode42")).
  - reflexivity.
  - reflexivity.
  - simpl. lia.
Defined.

(** ** Splitting and joining *)

Section Split.

Variable sep : N.

Lemma split_free (s : jsstring) :
  List.forallb (free_of sep) s = true -> split sep s = [s].
Proof.
  induction s as [| c s IH]; simpl; auto.
  intros H. apply andb_true_iff in H. destruct H as [Hc Hs].
  unfold free_of in Hc. apply negb_true_iff in Hc.
  rewrite Hc, (IH Hs). reflexivity.
Qed.


Lemma split_not_nil (s : jsstring) : split sep s <> [].
Proof.
  destruct s as [| c s]; simpl; [ discriminate | ].
  destruct (c =? sep); [ discriminate | ].
  destruct (split sep s); discriminate.
Qed.

(** The last segment is the text behind the last separator. *)
Lemma pop_split_behind (base e : jsstring) :
  List.forallb (free_of sep) e = true ->
  pop (split sep (base ++ sep :: e)) = e.
Proof.
  intros He. unfold pop.
  induction base as [| c base IH]; simpl.
  - rewrite N.eqb_refl, (split_free e He). reflexivity.
  - destruct (c =? sep).
    + simpl in IH.
      destruct (split sep (base ++ sep :: e)) eqn:E; [ | exact IH ].
      exfalso. exact (split_not_nil _ E).
    + destruct (split sep (base ++ sep :: e)) as [| sg more] eqn:E.
      * exfalso. exact (split_not_nil _ E).
      * simpl in IH. destruct more; [ | exact IH ].
        exfalso.
        assert (Hlen : (2 <= List.length (split sep (base ++ sep :: e)))%nat).
        { clear. induction base as [| d base IHb]; simpl.
          - rewrite N.eqb_refl. simpl.
            destruct (split sep e) eqn:E; [ exfalso; exact (split_not_nil _ E) | simpl; lia ].
          - destruct (d =? sep); [ simpl; lia | ].
            destruct (split sep (base ++ sep :: e)); simpl in *; lia. }
        rewrite E in Hlen. simpl in Hlen. lia.
Qed.


End Split.

(** ** The request of the upload *)

Lemma headers_unfold (metadata : ArchiveMetadata) (keys : ArchiveKeys) :
  headers metadata keys
  = [ (js "Authorization", authorization keys);
      (js "x-archive-auto-make-bucket", js "1");
      (js "x-archive-meta-mediatype", js "audio");
      (js "x-archive-meta-collection", js "opensource_audio");
      (js "x-archive-meta-title", sanitizeHeaderValue (title metadata));
      (js "x-archive-meta-creator", sanitizeHeaderValue (creator metadata));
      (js "x-archive-meta-description", sanitizeHeaderValue (description metadata));
      (js "x-archive-interactive-priority", js "1") ]
    ++ match cleanTags metadata with
       | [] => []
       | _ :: _ => [ (js "x-archive-meta-subject", join (js ";") (cleanTags metadata)) ]
       end.
Proof. reflexivity. Qed.




(** X8: whatever the metadata and the keys, the request carries the four
    fixed headers; the title, creator and description headers are each there
    exactly when the sanitized text holds no NUL. *)
Theorem request_headers_sent (identifier : jsstring) (file : File)
    (metadata : ArchiveMetadata) (keys : ArchiveKeys) :
  let sent := req_headers (upload_request identifier file metadata keys) in
  In (js "x-archive-auto-make-bucket", js "1") sent
  /\ In (js "x-archive-meta-mediatype", js "audio") sent
  /\ In (js "x-archive-meta-collection", js "opensource_audio") sent
  /\ In (js "x-archive-interactive-priority", js "1") sent
  /\ (In (js "x-archive-meta-title", sanitizeHeaderValue (title metadata)) sent
      <-> List.existsb (N.eqb 0) (sanitizeHeaderValue (title metadata)) = false)
  /\ (In (js "x-archive-meta-creator", sanitizeHeaderValue (creator metadata)) sent
      <-> List.existsb (N.eqb 0) (sanitizeHeaderValue (creator metadata)) = false)
  /\ (In (js "x-archive-meta-description", sanitizeHeaderValue (description metadata)) sent
      <-> List.existsb (N.eqb 0) (sanitizeHeaderValue (description metadata)) = false).
Proof.
  intros sent. subst sent. unfold upload_request. cbn [req_headers].
  assert (Hin : forall h, In h (headers metadata keys) ->
                  (In h (List.filter
                           (fun h => match setRequestHeader (snd h) with
                                     | None => true
                                     | Some _ => false
                                     end) (headers metadata keys))
                   <-> setRequestHeader (snd h) = None)).
  { intros h Hh. rewrite filter_In. split.
    - intros [_ H]. destruct (setRequestHeader (snd h)); [ discriminate | reflexivity ].
    - intros H. rewrite H. auto. }
  assert (Hsan : forall x, setRequestHeader (sanitizeHeaderValue x) = None
                           <-> List.existsb (N.eqb 0) (sanitizeHeaderValue x) = false).
  { intros x. rewrite setRequestHeader_sanitized.
    destruct (List.existsb (N.eqb 0) (sanitizeHeaderValue x));
      split; intros H; auto; discriminate. }
  rewrite headers_unfold in *.
  repeat split;
    try (apply Hin; [ apply in_or_app; left; simpl; tauto | reflexivity ]);
    try (intros H; apply Hsan; apply (Hin _) in H; [ exact H | apply in_or_app; left; simpl; tauto ]);
    try (intros H; apply Hin; [ apply in_or_app; left; simpl; tauto | apply Hsan; exact H ]).
Qed.

(** ** The object name, again *)

Lemma safeFilename_dotted (base e : jsstring) :
  e <> [] -> List.forallb not_dot e = true ->
  safeFilename (base ++ dot :: e)
  = replace_each not_filename_char underscore base ++ dot :: e.
Proof.
  intros Hne Hdl. unfold safeFilename.
  rewrite (ext_of_dotted base e Hne Hdl).
  unfold replace_each at 1. rewrite map_app. simpl map.
  change (if not_filename_char dot then underscore else dot) with dot.
  rewrite strip_extension_dotted.
  - reflexivity.
  - destruct e; [ contradiction | discriminate ].
  - apply (replace_each_dotless e Hdl).
Qed.

(** X9: when the extension is made of letters and digits, every character
    of the object name is in the allowed set or an underscore, so the name
    adds no path segment to the URL. *)
Theorem safeFilename_chars (base e : jsstring) :
  e <> [] ->
  List.forallb is_alnum e = true ->
  List.forallb is_object_name_char (safeFilename (base ++ [dot] ++ e)) = true
  /\ List.forallb (free_of slash) (safeFilename (base ++ [dot] ++ e)) = true.
Proof.
  intros Hne He.
  assert (Hdl : List.forallb not_dot e = true).
  { rewrite forallb_forall in *. intros c Hc. specialize (He c Hc).
    unfold is_alnum, is_lower, is_upper, is_digit in He.
    unfold not_dot, dot. revert He. cmp_cases. }
  change (base ++ [dot] ++ e) with (base ++ dot :: e).
  rewrite (safeFilename_dotted base e Hne Hdl).
  assert (Hobj : List.forallb is_object_name_char
                   (replace_each not_filename_char underscore base ++ dot :: e) = true).
  { rewrite forallb_app. apply andb_true_iff. split.
    - unfold replace_each. rewrite forallb_forall. intros c Hc.
      apply in_map_iff in Hc. destruct Hc as (d & <- & _).
      unfold is_object_name_char.
      destruct (not_filename_char d) eqn:E; [ reflexivity | rewrite E; reflexivity ].
    - simpl. rewrite forallb_forall in *. intros c Hc. specialize (He c Hc).
      unfold is_object_name_char, not_filename_char. rewrite negb_involutive.
      unfold is_alnum in He. apply orb_true_iff in He. destruct He as [He | He].
      + apply orb_true_iff in He. destruct He as [He | He]; rewrite He;
          rewrite ?orb_true_r; reflexivity.
      + rewrite He, ?orb_true_r. reflexivity. }
  split; [ exact Hobj | ].
  rewrite forallb_forall in *. intros c Hc. specialize (Hobj c Hc).
  unfold is_object_name_char, not_filename_char, is_lower, is_upper, is_digit,
    dot, hyphen, underscore in Hobj.
  unfold free_of, slash. revert Hobj. cmp_cases.
Qed.

Lemma safeFilename_chars_witness :
  List.forallb is_object_name_char (safeFilename (js "ep 1/2" ++ [dot] ++ js "mp3"))
  = true.
Proof.
  destruct (safeFilename_chars (js "ep 1/2") (js "mp3")) as [H _].
  - discriminate.
  - reflexivity.
  - exact H.
Defined.

(** ** The credential probe, again *)

Lemma setRequestHeader_header_chars (value : jsstring) :
  List.forallb is_header_char value = true -> setRequestHeader value = None.
Proof.
  intros H. unfold setRequestHeader.
  assert (H1 : List.existsb outside_latin1 value = false).
  { destruct (List.existsb outside_latin1 value) eqn:E; auto.
    apply existsb_exists in E. destruct E as (c & Hin & Hc).
    rewrite forallb_forall in H. specialize (H c Hin).
    unfold is_header_char in H. rewrite Hc in H. discriminate. }
  rewrite H1.
  set (v := drop_trailing is_http_whitespace (drop_leading is_http_whitespace value)).
  assert (Hv : List.forallb is_header_char v = true)
    by (apply drop_trailing_forallb, drop_leading_forallb; exact H).
  destruct (List.existsb (fun c => (c =? 0) || (c =? 10) || (c =? 13)) v) eqn:E; auto.
  apply existsb_exists in E. destruct E as (c & Hin & Hc).
  rewrite forallb_forall in Hv. specialize (Hv c Hin).
  unfold is_header_char in Hv. rewrite Hc, andb_false_r in Hv. discriminate.
Qed.

(** X10: for keys made of characters up to 0xFF other than NUL, LF and CR
    the probe's promise resolves: to [true] when the request loads with
    status 200, to [false] for every other status and for a network error. *)
Theorem verifyCredentials_resolves_for_legal_keys (keys : ArchiveKeys)
    (outcome : xhr_outcome) :
  List.forallb is_header_char (accessKey keys) = true ->
  List.forallb is_header_char (secretKey keys) = true ->
  verifyCredentials keys outcome
  = Resolved match outcome with
             | Load status _ => status =? 200
             | NetworkError => false
             end.
Proof.
  intros Ha Hs. apply verifyCredentials_resolves.
  apply setRequestHeader_header_chars. unfold authorization.
  rewrite !forallb_app, Ha, Hs. reflexivity.
Qed.

Lemma verifyCredentials_resolves_for_legal_keys_witness :
  verifyCredentials {| accessKey := js "AbC123"; secretKey := js "xYz789" |}
    (Load 403 (js "Forbidden"))
  = Resolved false.
Proof.
  rewrite (verifyCredentials_resolves_for_legal_keys
             {| accessKey := js "AbC123"; secretKey := js "xYz789" |}
             (Load 403 (js "Forbidden"))); reflexivity.
Defined.

(** ** The step state machine *)

Lemma AppStep_eqb_eq (a b : AppStep) : AppStep_eqb a b = true -> a = b.
Proof. destruct a, b; simpl; intros H; try discriminate; reflexivity. Qed.

Lemma option_eqb_eq (a b : option jsstring) : option_eqb a b = true -> a = b.
Proof.
  destruct a, b; simpl; intros H; try discriminate; auto.
  apply eqb_eq in H. subst. reflexivity.
Qed.



(** An invariant of [dispatch] holds in every state a run reaches. *)
Lemma run_invariant (P : State -> Prop) :
  (forall s ev, P s -> P (dispatch s ev)) ->
  forall evs s, P s -> P (run s evs).
Proof.
  intros Hstep evs. unfold run.
  induction evs as [| ev evs IH]; intros s Hs; simpl; auto.
Qed.

(** A handler leaves the two intervals alone or clears both. *)
Lemma handle_intervals (ev : event) (s : State) :
  (timerInterval (handle ev s) = timerInterval s
   /\ pollInterval (handle ev s) = pollInterval s)
  \/ (timerInterval (handle ev s) = false /\ pollInterval (handle ev s) = false).
Proof.
  destruct ev; unfold handle.
  - left. split; reflexivity.
  - destruct (AppStep_eqb (step s) UPLOAD); left; split; reflexivity.
  - left. split; reflexivity.
  - destruct (review_form_rendered s); left; split; reflexivity.
  - destruct (AppStep_eqb (step s) UPLOAD); left; split; reflexivity.
  - destruct (review_rendered s); left; split; reflexivity.
  - destruct (review_form_rendered s); [ | left; split; reflexivity ].
    unfold handleUpload. destruct (file s), (keys s); left; split; reflexivity.
  - destruct (pending_upload s); left; split; reflexivity.
  - unfold handleUpload_resume.
    destruct (pending_upload s); [ | left; split; reflexivity ].
    destruct (upload_settle j outcome); left; split; reflexivity.
  - unfold timer_tick. destruct (timerInterval s) eqn:E; left; split; cbn; auto.
  - unfold poll_tick. destruct (pollInterval s) eqn:E; left; split; cbn; auto.
  - unfold checkStatus. destruct (check_succeeds (poll_identifier s) r).
    + right. split; reflexivity.
    + left. split; reflexivity.
  - destruct (skip_rendered s); left; split; reflexivity.
  - destruct (success_rendered s); left; split; reflexivity.
  - destruct (AppStep_eqb (step s) ERROR); left; split; reflexivity.
Qed.

Lemma effect_body_scoped (s : State) :
  timerInterval s = false -> pollInterval s = false ->
  intervals_scoped (effect_body s).
Proof.
  intros Ht Hp. unfold intervals_scoped, effect_body, success_rendered.
  destruct (step s) eqn:Es;
    try (rewrite Ht, Hp; split; [ reflexivity | discriminate ]).
  destruct (successUrl s) as [url |] eqn:Eu;
    try (rewrite Ht, Hp; split; [ reflexivity | discriminate ]).
  destruct (truthy url) eqn:Et;
    try (rewrite Ht, Hp; split; [ reflexivity | discriminate ]).
  destruct (truthy (pop (split 47 url))); cbn.
  - rewrite Es, Eu, Et. auto.
  - rewrite Ht, Hp. split; [ reflexivity | discriminate ].
Qed.

Lemma dispatch_scoped (s : State) (ev : event) :
  intervals_scoped s -> intervals_scoped (dispatch s ev).
Proof.
  intros [Heq Hin]. unfold dispatch, run_effect.
  destruct (AppStep_eqb (step s) (step (handle ev s))
            && option_eqb (successUrl s) (successUrl (handle ev s))) eqn:E.
  - apply andb_true_iff in E. destruct E as [Es Eu].
    apply AppStep_eqb_eq in Es. apply option_eqb_eq in Eu.
    unfold intervals_scoped, success_rendered in *. rewrite <- Es, <- Eu.
    destruct (handle_intervals ev s) as [[Ht Hp] | [Ht Hp]]; rewrite Ht, Hp.
    + auto.
    + split; [ reflexivity | discriminate ].
  - apply effect_body_scoped; reflexivity.
Qed.

(** X11: in every state reachable from the initial one the one-second
    timer and the poll interval are either both set or both cleared, and
    they are set only while the success panel is shown: no interval
    outlives the step it belongs to. *)
Theorem intervals_never_orphaned (evs : list event) :
  intervals_scoped (run initial evs).
Proof.
  apply run_invariant.
  - intros s ev. apply dispatch_scoped.
  - split; [ reflexivity | discriminate ].
Qed.




Lemma identifier_char_not_slash (c : N) :
  is_identifier_char c = true -> free_of slash c = true.
Proof.
  unfold is_identifier_char, is_lower, is_digit, hyphen, free_of, slash.
  cmp_cases.
Qed.

Lemma generateIdentifier_slash_free (t : Z) (title : jsstring) :
  List.forallb (free_of slash) (generateIdentifier t title) = true
  /\ truthy (generateIdentifier t title) = true.
Proof.
  split; [ | reflexivity ].
  unfold generateIdentifier. rewrite !forallb_app.
  assert (H : forall s, List.forallb is_identifier_char s = true ->
                        List.forallb (free_of slash) s = true).
  { intros s Hs. rewrite forallb_forall in *. intros c Hc.
    apply identifier_char_not_slash. auto. }
  rewrite (H _ (cleanTitle_chars title)), (H _ (number_to_string_chars t)).
  reflexivity.
Qed.

(** The identifier read back from the public URL. *)
Lemma identifier_of_details_url (id : jsstring) :
  List.forallb (free_of slash) id = true ->
  pop (split 47 (details_url id)) = id.
Proof.
  intros H. unfold details_url.
  change (js "https://archive.org/details/")
    with (js "https://archive.org/details" ++ [slash]).
  rewrite <- app_assoc. apply (pop_split_behind slash). exact H.
Qed.

Lemma upload_success_starts_poller (s : State) (id : jsstring) (status : N)
    (body : jsstring) :
  List.forallb (free_of slash) id = true -> truthy id = true ->
  pending_upload s = Some id -> step s = UPLOADING ->
  200 <= status <= 299 ->
  dispatch s (UploadSettled (Load status body))
  = set_intervals true true
      (log_request id
         (set_poll_identifier id
            (set_elapsedTime 0
               (set_isVerifying true
                  (effect_cleanup
                     (set_step SUCCESS
                        (set_successUrl (Some (details_url id))
                           (set_pending_upload None s)))))))).
Proof.
  intros Hfree Hid Hp Hs Hr.
  unfold dispatch, handle, handleUpload_resume, upload_settle.
  rewrite Hp. apply success_range in Hr. rewrite Hr.
  unfold run_effect. rewrite Hs.
  cbn [step set_step set_successUrl set_pending_upload AppStep_eqb andb].
  unfold effect_body.
  cbn [step successUrl effect_cleanup set_intervals set_step set_successUrl].
  change (truthy (details_url id)) with true. cbv iota.
  rewrite (identifier_of_details_url id Hfree), Hid. reflexivity.
Qed.

(** X13: when the upload in flight is answered with a status from 200 to
    299, the orchestrator enters the success step with the public URL of the
    generated identifier, and the poller starts at once: verification on,
    elapsed time 0, both intervals set, and one request sent for exactly the
    generated identifier, which is read back from the URL. *)
Theorem upload_success_enters_verification (s : State) (t : Z)
    (title : jsstring) (status : N) (body : jsstring) :
  pending_upload s = Some (generateIdentifier t title) ->
  step s = UPLOADING ->
  200 <= status <= 299 ->
  let s' := dispatch s (UploadSettled (Load status body)) in
  step s' = SUCCESS
  /\ successUrl s'
     = Some (js "https://archive.org/details/" ++ generateIdentifier t title)
  /\ pending_upload s' = None
  /\ isVerifying s' = true
  /\ elapsedTime s' = 0
  /\ timerInterval s' = true /\ pollInterval s' = true
  /\ poll_identifier s' = generateIdentifier t title
  /\ poll_requests s' = poll_requests s ++ [generateIdentifier t title]
  /\ file s' = file s /\ metadata s' = metadata s.
Proof.
  intros Hp Hs Hr s'. subst s'.
  destruct (generateIdentifier_slash_free t title) as [Hfree Hid].
  rewrite (upload_success_starts_poller s _ status body Hfree Hid Hp Hs Hr).
  repeat split.
Qed.

Lemma upload_success_enters_verification_witness :
  let s := run initial
             [SaveKeys demo_keys true; SelectFile demo_file;
              MetadataGenerated demo_meta; ClickPublish 1700000000000] in
  poll_requests (dispatch s (UploadSettled (Load 200 [])))
  = [js "notebooklm-archive-my-talk-1700000000000"].
Proof.
  intros s.
  destruct (upload_success_enters_verification s 1700000000000 (js "My Talk")
              200 []) as (_ & _ & _ & _ & _ & _ & _ & _ & H & _).
  - reflexivity.
  - reflexivity.
  - lia.
  - rewrite H. reflexivity.
Defined.

(** X14: when the upload in flight fails (another status, or a network
    error), the orchestrator enters the error step with a non-empty message
    and keeps the file and the metadata; "try again" then leads back to the
    review step, still with that file and that metadata, and starts no
    interval. *)
Theorem upload_failure_is_recoverable (s : State) (id : jsstring)
    (outcome : xhr_outcome) :
  pending_upload s = Some id ->
  step s = UPLOADING ->
  (forall status body, outcome = Load status body -> ~ 200 <= status <= 299) ->
  let s1 := dispatch s (UploadSettled outcome) in
  let s2 := dispatch s1 ClickTryAgain in
  step s1 = ERROR
  /\ (exists message, errorMsg s1 = Some message /\ truthy message = true)
  /\ successUrl s1 = successUrl s
  /\ file s1 = file s /\ metadata s1 = metadata s
  /\ step s2 = REVIEW
  /\ file s2 = file s /\ metadata s2 = metadata s /\ keys s2 = keys s
  /\ timerInterval s2 = false /\ pollInterval s2 = false.
Proof.
  intros Hp Hs Hfail s1 s2.
  assert (Hrej : exists message,
             upload_settle id outcome = Rejected (Error message)
             /\ truthy message = true).
  { destruct outcome as [status body | ]; unfold upload_settle.
    - destruct ((200 <=? status) && (status <? 300)) eqn:E.
      + apply success_range in E. exfalso. exact (Hfail status body eq_refl E).
      + eexists. split; reflexivity.
    - eexists. split; reflexivity. }
  destruct Hrej as (message & Hrej & Htruthy).
  assert (H1 : s1 = effect_body
                      (effect_cleanup
                         (set_step ERROR
                            (set_errorMsg (Some message) (set_pending_upload None s))))).
  { subst s1. unfold dispatch, handle, handleUpload_resume.
    rewrite Hp, Hrej. unfold error_message. rewrite Htruthy.
    unfold run_effect. rewrite Hs. reflexivity. }
  assert (H1' : s1 = effect_cleanup
                       (set_step ERROR
                          (set_errorMsg (Some message) (set_pending_upload None s))))
    by (rewrite H1; reflexivity).
  assert (H2 : s2 = effect_body (effect_cleanup (set_step REVIEW s1))).
  { subst s2. unfold dispatch, handle. rewrite H1'. reflexivity. }
  rewrite H2, H1'. cbn. repeat split; eauto.
Qed.

Lemma upload_failure_is_recoverable_witness :
  let s := run initial
             [SaveKeys demo_keys true; SelectFile demo_file;
              MetadataGenerated demo_meta; ClickPublish 1700000000000] in
  step (dispatch (dispatch s (UploadSettled NetworkError)) ClickTryAgain) = REVIEW.
Proof.
  intros s.
  destruct (upload_failure_is_recoverable s
              (js "notebooklm-archive-my-talk-1700000000000") NetworkError)
    as (_ & _ & _ & _ & _ & H & _).
  - reflexivity.
  - reflexivity.
  - intros status body Heq. discriminate.
  - exact H.
Defined.

Lemma edit_outside_review (s : State) (m : ArchiveMetadata) :
  step s <> REVIEW -> dispatch s (EditMetadata m) = s.
Proof.
  intros H. unfold dispatch, handle, review_form_rendered, review_rendered.
  destruct (AppStep_eqb (step s) REVIEW) eqn:E.
  - apply AppStep_eqb_eq in E. contradiction.
  - apply run_effect_same; reflexivity.
Qed.

(** X15: the publish button, shown with the review form.  Without keys it
    only opens the settings and no upload starts.  With keys the
    orchestrator enters the uploading step at progress 0 with the identifier
    generated from the title as it is at that moment, and until the upload
    is settled an edit of the metadata changes nothing. *)
Theorem publish_requires_keys (s : State) (t : Z) :
  review_form_rendered s = true ->
  (keys s = None ->
   dispatch s (ClickPublish t) = set_isSettingsOpen true s)
  /\ (forall k, keys s = Some k ->
      let s' := dispatch s (ClickPublish t) in
      step s' = UPLOADING
      /\ uploadProgress s' = 0%Q
      /\ pending_upload s' = Some (generateIdentifier t (title (metadata s)))
      /\ file s' = file s /\ metadata s' = metadata s
      /\ forall m, dispatch s' (EditMetadata m) = s').
Proof.
  intros Hr.
  assert (Hrev : step s = REVIEW /\ exists f, file s = Some f).
  { unfold review_form_rendered, review_rendered in Hr.
    apply andb_true_iff in Hr. destruct Hr as [Hr _].
    apply andb_true_iff in Hr. destruct Hr as [Hs Hf].
    apply AppStep_eqb_eq in Hs. destruct (file s); [ eauto | discriminate ]. }
  destruct Hrev as (Hs & f & Hf).
  split.
  - intros Hk. unfold dispatch, handle. rewrite Hr.
    unfold handleUpload. rewrite Hf, Hk.
    apply run_effect_same; reflexivity.
  - intros k Hk s'.
    assert (Hs' : s' = effect_body
                         (effect_cleanup
                            (set_pending_upload
                               (Some (generateIdentifier t (title (metadata s))))
                               (set_uploadProgress 0%Q (set_step UPLOADING s))))).
    { subst s'. unfold dispatch, handle. rewrite Hr.
      unfold handleUpload. rewrite Hf, Hk.
      unfold run_effect. rewrite Hs. reflexivity. }
    rewrite Hs'. cbn [effect_body step set_pending_upload set_uploadProgress
                        set_step effect_cleanup set_intervals].
    repeat split.
    intros m. apply edit_outside_review. discriminate.
Qed.

Lemma publish_requires_keys_witness :
  dispatch (run initial [SelectFile demo_file; MetadataGenerated demo_meta])
    (ClickPublish 1700000000000)
  = set_isSettingsOpen true
      (run initial [SelectFile demo_file; MetadataGenerated demo_meta]).
Proof.
  destruct (publish_requires_keys
              (run initial [SelectFile demo_file; MetadataGenerated demo_meta])
              1700000000000) as [H _].
  - reflexivity.
  - apply H. reflexivity.
Defined.

(** ** Ticks and checks of a session *)

Lemma dispatch_timer_tick (s : State) :
  dispatch s TimerTick
  = if timerInterval s then set_elapsedTime (elapsedTime s + 1) s else s.
Proof.
  unfold dispatch, handle, timer_tick.
  destruct (timerInterval s); apply run_effect_same; reflexivity.
Qed.

Lemma dispatch_poll_tick (s : State) :
  dispatch s PollTick
  = if pollInterval s then log_request (poll_identifier s) s else s.
Proof.
  unfold dispatch, handle, poll_tick.
  destruct (pollInterval s); apply run_effect_same; reflexivity.
Qed.

Lemma run_cons (s : State) (ev : event) (evs : list event) :
  run s (ev :: evs) = run (dispatch s ev) evs.
Proof. reflexivity. Qed.

Lemma timer_ticks_set (n : nat) (s : State) :
  timerInterval s = true ->
  elapsedTime (run s (List.repeat TimerTick n)) = elapsedTime s + N.of_nat n
  /\ isVerifying (run s (List.repeat TimerTick n)) = isVerifying s
  /\ poll_requests (run s (List.repeat TimerTick n)) = poll_requests s.
Proof.
  revert s. induction n as [| n IH]; intros s H.
  - cbn. rewrite N.add_0_r. auto.
  - cbn [List.repeat]. rewrite run_cons, dispatch_timer_tick, H.
    destruct (IH (set_elapsedTime (elapsedTime s + 1) s) H) as (He & Hv & Hp).
    rewrite He, Hv, Hp. cbn [elapsedTime isVerifying poll_requests set_elapsedTime].
    repeat split. lia.
Qed.

Lemma poll_ticks_set (n : nat) (s : State) :
  pollInterval s = true ->
  poll_requests (run s (List.repeat PollTick n))
  = poll_requests s ++ List.repeat (poll_identifier s) n
  /\ elapsedTime (run s (List.repeat PollTick n)) = elapsedTime s
  /\ isVerifying (run s (List.repeat PollTick n)) = isVerifying s.
Proof.
  revert s. induction n as [| n IH]; intros s H.
  - cbn. rewrite app_nil_r. auto.
  - cbn [List.repeat]. rewrite run_cons, dispatch_poll_tick, H.
    destruct (IH (log_request (poll_identifier s) s) H) as (Hp & He & Hv).
    rewrite He, Hv, Hp.
    cbn [elapsedTime isVerifying poll_requests poll_identifier log_request].
    rewrite <- app_assoc. repeat split.
Qed.

Lemma ticks_cleared (n : nat) (s : State) :
  (timerInterval s = false -> run s (List.repeat TimerTick n) = s)
  /\ (pollInterval s = false -> run s (List.repeat PollTick n) = s).
Proof.
  induction n as [| n [IHt IHp]]; [ split; reflexivity | ].
  split; intros H; cbn [List.repeat]; rewrite run_cons.
  - rewrite dispatch_timer_tick, H. auto.
  - rewrite dispatch_poll_tick, H. auto.
Qed.

(** X16: while the timer is set, [n] ticks add exactly [n] seconds to the
    elapsed time and touch nothing else that is shown; while the poll
    interval is set, [n] poll ticks send exactly [n] further requests, all
    for the session's identifier.  With the interval cleared the ticks do
    nothing. *)
Theorem ticks_are_counted (s : State) (n : nat) :
  (timerInterval s = true ->
   elapsedTime (run s (List.repeat TimerTick n)) = elapsedTime s + N.of_nat n
   /\ isVerifying (run s (List.repeat TimerTick n)) = isVerifying s
   /\ poll_requests (run s (List.repeat TimerTick n)) = poll_requests s)
  /\ (pollInterval s = true ->
      poll_requests (run s (List.repeat PollTick n))
      = poll_requests s ++ List.repeat (poll_identifier s) n
      /\ elapsedTime (run s (List.repeat PollTick n)) = elapsedTime s
      /\ isVerifying (run s (List.repeat PollTick n)) = isVerifying s)
  /\ (timerInterval s = false -> run s (List.repeat TimerTick n) = s)
  /\ (pollInterval s = false -> run s (List.repeat PollTick n) = s).
Proof.
  split; [ apply timer_ticks_set | ].
  split; [ apply poll_ticks_set | ].
  apply ticks_cleared.
Qed.

Lemma ticks_are_counted_witness :
  elapsedTime (run waiting_session (List.repeat TimerTick 9)) = 30.
Proof.
  destruct (ticks_are_counted waiting_session 9) as [H _].
  destruct H as [H _].
  - reflexivity.
  - rewrite H. reflexivity.
Defined.




(** ** Texts with one separator *)

Lemma app_pivot_unique (c : N) (l1 l2 r1 r2 : jsstring) :
  List.forallb (free_of c) l1 = true -> List.forallb (free_of c) l2 = true ->
  l1 ++ c :: r1 = l2 ++ c :: r2 -> l1 = l2 /\ r1 = r2.
Proof.
  revert l2. induction l1 as [| x l1 IH]; intros [| y l2] H1 H2 H; simpl in *.
  - injection H as <-. auto.
  - injection H as <- _. unfold free_of in H2. rewrite N.eqb_refl in H2. discriminate.
  - injection H as -> _. unfold free_of in H1. rewrite N.eqb_refl in H1. discriminate.
  - injection H as <- H.
    apply andb_true_iff in H1. apply andb_true_iff in H2.
    destruct (IH l2 (proj2 H1) (proj2 H2) H) as [<- <-]. auto.
Qed.

Lemma digits_free_of_colon (s : jsstring) :
  List.forallb is_digit s = true -> List.forallb (free_of colon) s = true.
Proof.
  intros H. rewrite forallb_forall in *. intros c Hc. specialize (H c Hc).
  unfold is_digit in H. unfold free_of, colon. revert H. cmp_cases.
Qed.

Lemma number_of_N_injective (a b : N) :
  number_to_string (Z.of_N a) = number_to_string (Z.of_N b) -> a = b.
Proof. intros H. apply number_to_string_injective in H. lia. Qed.

(** X18: the failure message determines the status and the response text:
    two failures with the same message have the same status and the same
    body. *)
Theorem upload_failure_message_injective (status status' : N)
    (body body' : jsstring) :
  upload_failure_message status body = upload_failure_message status' body' ->
  status = status' /\ body = body'.
Proof.
  unfold upload_failure_message. intros H.
  apply app_inv_head in H.
  change (number_to_string (Z.of_N status) ++ colon :: 32 :: body
          = number_to_string (Z.of_N status') ++ colon :: 32 :: body') in H.
  apply app_pivot_unique in H;
    try (apply digits_free_of_colon, number_to_string_digits).
  destruct H as [Hs Hb]. split.
  - apply number_of_N_injective. exact Hs.
  - injection Hb. auto.
Qed.

Lemma upload_failure_message_injective_witness :
  upload_failure_message 403 (js "Forbidden") <> upload_failure_message 404 (js "Forbidden").
Proof.
  intros H.
  destruct (upload_failure_message_injective 403 404 (js "Forbidden")
              (js "Forbidden") H) as [Hs _].
  discriminate.
Defined.

(** ** The elapsed time as shown *)





(** ** The link status of the context text *)

Lemma starts_with_iff (p s : jsstring) :
  starts_with p s = true <-> exists r, s = p ++ r.
Proof.
  revert s. induction p as [| x p IH]; intros s; simpl.
  - split; eauto.
  - destruct s as [| y s].
    + split; [ discriminate | intros [r H]; discriminate ].
    + rewrite andb_true_iff, N.eqb_eq, IH. split.
      * intros [-> [r ->]]. eauto.
      * intros [r H]. injection H as -> ->. eauto.
Qed.

Lemma followed_by_nonspace_iff (p s : jsstring) :
  followed_by_nonspace p s = true
  <-> exists c r, is_space c = false /\ s = p ++ c :: r.
Proof.
  unfold followed_by_nonspace. rewrite andb_true_iff, starts_with_iff. split.
  - intros [[r ->] H]. rewrite skipn_app, skipn_all, Nat.sub_diag in H.
    simpl in H. destruct r as [| c r]; [ discriminate | ].
    apply negb_true_iff in H. eauto.
  - intros (c & r & Hc & ->). split; [ eauto | ].
    rewrite skipn_app, skipn_all, Nat.sub_diag. simpl. rewrite Hc. reflexivity.
Qed.

Lemma hasUrl_iff (s : jsstring) : hasUrl s = true <-> holds_url s.
Proof.
  unfold holds_url. induction s as [| x s IH].
  - split; [ discriminate | ].
    intros (l & c & r & _ & [H | H]); destruct l; discriminate.
  - change (hasUrl (x :: s)) with (url_here (x :: s) || hasUrl s).
    rewrite orb_true_iff, IH. unfold url_here.
    rewrite orb_true_iff, !followed_by_nonspace_iff. split.
    + intros [[(c & r & Hc & H) | (c & r & Hc & H)] | (l & c & r & Hc & H)].
      * exists [], c, r. auto.
      * exists [], c, r. auto.
      * exists (x :: l), c, r. split; [ exact Hc | ].
        destruct H as [-> | ->]; auto.
    + intros (l & c & r & Hc & H). destruct l as [| y l].
      * left. destruct H as [H | H]; [ left | right ]; eauto.
      * right. exists l, c, r. split; [ exact Hc | ].
        destruct H as [H | H]; injection H as _ ->; auto.
Qed.

(** X20: the link status is [none] exactly when the context text holds no
    [http://] or [https://] followed by a character that is not white space
    (so a notebook address pasted without its scheme counts as no link); it
    is [notebook] exactly when there is such a link and the text mentions
    [notebooklm.google] or [docs.google.com] anywhere, and [valid] for every
    other text with a link. *)
Theorem linkStatus_classification (userContext : jsstring) :
  (linkStatus userContext = LinkNone <-> ~ holds_url userContext)
  /\ (linkStatus userContext = LinkNotebook
      <-> holds_url userContext
          /\ (includes userContext (js "notebooklm.google") = true
              \/ includes userContext (js "docs.google.com") = true))
  /\ (linkStatus userContext = LinkValid
      <-> holds_url userContext
          /\ includes userContext (js "notebooklm.google") = false
          /\ includes userContext (js "docs.google.com") = false).
Proof.
  unfold linkStatus.
  destruct userContext as [| x ctx].
  - assert (Hno : ~ holds_url []).
    { intros H. apply hasUrl_iff in H. discriminate. }
    simpl. repeat split; try discriminate; try tauto.
  - cbn [truthy negb]. cbv iota.
    destruct (hasUrl (x :: ctx)) eqn:E.
    + assert (Hu : holds_url (x :: ctx)) by (apply hasUrl_iff; exact E).
      destruct (includes (x :: ctx) (js "notebooklm.google")),
        (includes (x :: ctx) (js "docs.google.com")); cbn [orb];
        repeat split; try discriminate; try tauto;
        try (intros [_ [H | H]]; discriminate);
        try (intros (_ & H1 & H2); discriminate);
        try (intros H; exfalso; apply H; exact Hu); auto.
    + assert (Hu : ~ holds_url (x :: ctx)).
      { intros H. apply hasUrl_iff in H. congruence. }
      repeat split; try discriminate; try tauto.
Qed.

(** ** The settings dialog *)

Lemma trim_idempotent (s : jsstring) : trim (trim s) = trim s.
Proof. unfold trim. apply strip_both_idempotent. Qed.

(** X21: [handleSave] alerts, and saves nothing, exactly when one of the two
    keys is empty once trimmed.  Otherwise the keys it stores are the
    trimmed inputs, non-empty and without white space at their ends; the
    orchestrator gets the same keys, with the verified flag true exactly
    when the last test succeeded, and the dialog closed; and reading the two
    stored items at the next start gives the same keys and the same flag. *)
Theorem handleSave_stores_trimmed_keys (m : SettingsModal.state) (app : State) :
  (SettingsModal.handleSave m app = SettingsModal.Alerted
   <-> trim (SettingsModal.accessKey m) = []
       \/ trim (SettingsModal.secretKey m) = [])
  /\ (forall st' app',
      SettingsModal.handleSave m app = SettingsModal.Saved st' app' ->
      let k := {| accessKey := trim (SettingsModal.accessKey m);
                  secretKey := trim (SettingsModal.secretKey m) |} in
      let verified :=
        SettingsModal.status_eqb (SettingsModal.verificationStatus m)
          SettingsModal.success in
      ia_keys st' = Some k
      /\ keys app' = Some k
      /\ truthy (accessKey k) = true /\ truthy (secretKey k) = true
      /\ trim (accessKey k) = accessKey k /\ trim (secretKey k) = secretKey k
      /\ keysVerified app' = verified
      /\ isSettingsOpen app' = false
      /\ step app' = step app /\ file app' = file app
      /\ forall s, keys (load_saved_keys st' s) = Some k
                   /\ keysVerified (load_saved_keys st' s) = verified).
Proof.
  unfold SettingsModal.handleSave.
  destruct (truthy (trim (SettingsModal.accessKey m))) eqn:Ea;
    destruct (truthy (trim (SettingsModal.secretKey m))) eqn:Es;
    cbn [negb orb].
  - split.
    + split; [ discriminate | ].
      intros [H | H]; [ rewrite H in Ea | rewrite H in Es ]; discriminate.
    + intros st' app' H. injection H as <- <-. cbv zeta.
      repeat split; try reflexivity; try assumption;
        try apply trim_idempotent.
      unfold load_saved_keys. cbn [ia_keys ia_keys_verified keysVerified set_keys].
      destruct (SettingsModal.status_eqb (SettingsModal.verificationStatus m)
                  SettingsModal.success); reflexivity.
  - split; [ | discriminate ].
    split; [ intros _ | reflexivity ].
    right. destruct (trim (SettingsModal.secretKey m)); [ reflexivity | discriminate ].
  - split; [ | discriminate ].
    split; [ intros _ | reflexivity ].
    left. destruct (trim (SettingsModal.accessKey m)); [ reflexivity | discriminate ].
  - split; [ | discriminate ].
    split; [ intros _ | reflexivity ].
    left. destruct (trim (SettingsModal.accessKey m)); [ reflexivity | discriminate ].
Qed.

Lemma handleSave_stores_trimmed_keys_witness :
  let m := {| SettingsModal.accessKey := js "  AK1 ";
              SettingsModal.secretKey := js "SK2  ";
              SettingsModal.verifying := false;
              SettingsModal.verificationStatus := SettingsModal.success |} in
  exists st' app',
    SettingsModal.handleSave m initial = SettingsModal.Saved st' app'
    /\ keys app' = Some {| accessKey := js "AK1"; secretKey := js "SK2" |}
    /\ keysVerified app' = true.
Proof.
  intros m. eexists. eexists. split; [ reflexivity | ].
  destruct (handleSave_stores_trimmed_keys m initial) as [_ Hsaved].
  destruct (Hsaved _ _ eq_refl) as (_ & Hk & _ & _ & _ & _ & Hv & _).
  split; [ exact Hk | exact Hv ].
Defined.

(** X22: a test that starts (both keys non-empty once trimmed) always ends
    with the verifying flag off and the inputs as they were; the status is
    [success] exactly when the Authorization header of the trimmed keys is
    accepted and the probe loads with status 200, and [error] in every other
    case, the rejected promise among them. *)
Theorem test_keys_result (m : SettingsModal.state) (outcome : xhr_outcome) :
  truthy (trim (SettingsModal.accessKey m)) = true ->
  truthy (trim (SettingsModal.secretKey m)) = true ->
  let k := {| accessKey := trim (SettingsModal.accessKey m);
              secretKey := trim (SettingsModal.secretKey m) |} in
  let m' := SettingsModal.test_keys outcome m in
  SettingsModal.verifying m' = false
  /\ SettingsModal.accessKey m' = SettingsModal.accessKey m
  /\ SettingsModal.secretKey m' = SettingsModal.secretKey m
  /\ (SettingsModal.verificationStatus m' = SettingsModal.success
      <-> setRequestHeader (authorization k) = None
          /\ exists body, outcome = Load 200 body)
  /\ (SettingsModal.verificationStatus m' <> SettingsModal.success ->
      SettingsModal.verificationStatus m' = SettingsModal.error).
Proof.
  intros Ha Hs k m'. subst m'.
  unfold SettingsModal.test_keys, SettingsModal.handleTestKeys.
  rewrite Ha, Hs. cbn [negb orb]. fold k.
  unfold verifyCredentials.
  destruct (setRequestHeader (authorization k)) as [e |].
  - cbn. repeat split; try discriminate; auto.
    intros [H _]. discriminate.
  - destruct outcome as [status body | ].
    + destruct (N.eqb_spec status 200) as [-> | Hne]; cbn.
      * repeat split; eauto. intros H. contradiction.
      * repeat split; try discriminate; auto.
        intros [_ [b H]]. injection H as H _. contradiction.
    + cbn. repeat split; try discriminate; auto.
      intros [_ [b H]]. discriminate.
Qed.

Lemma test_keys_result_witness :
  let m := {| SettingsModal.accessKey := [1082; 1083; 1102; 1095];
              SettingsModal.secretKey := js "s3cr3t";
              SettingsModal.verifying := false;
              SettingsModal.verificationStatus := SettingsModal.idle |} in
  SettingsModal.verificationStatus (SettingsModal.test_keys (Load 200 []) m)
  = SettingsModal.error.
Proof.
  intros m.
  destruct (test_keys_result m (Load 200 [])) as (_ & _ & _ & Hiff & Herr).
  - reflexivity.
  - reflexivity.
  - apply Herr. intros H. apply Hiff in H. destruct H as [H _].
    vm_compute in H. discriminate.
Defined.


